(** * Sorairo radar: scoring engine and history retention

    A shallow embedding of the text-scoring engine ([analyze]) and of the
    history store ([appendWithLimit], [commitHistory], [deleteHistoryItem],
    export / import) of the emotion-radar application, followed by the
    properties established about them.

    Conventions of the embedding.
    - A JavaScript string is the list of its UTF-16 code units
      ([jsstring]); [length], [slice], [indexOf] and [includes] therefore
      count code units, exactly as the engine does.
    - A JavaScript number that carries a score is an exact rational ([Q]);
      rounding error of IEEE doubles is not modelled.  Integer valued
      numbers of the hasher are in [Z] with the 32-bit wrap written out.
    - Array indices and lengths are [nat].
    - The source exists in variants.  Functions that differ between them
      live in [Module Guarded] (application version 1.3.0: dedup over the
      last ten items, minimum length, delete guard) and [Module HashSetDedup]
      (version 1.0.1: dedup over a hash set, no delete guard). *)

From Stdlib Require Import ZArith QArith Qabs Qminmax Qround Lia Lqa Bool.
From Stdlib Require Import Strings.String Strings.Ascii.
From stdpp Require Import base tactics list gmap.
From Equations Require Import Equations.
From Equations.Prop Require Import Logic.

Local Open Scope nat_scope.

(* ===================================================================== *)
(** * JavaScript strings *)
(* ===================================================================== *)

Definition jsstring := list N.

(** An ASCII literal as a JavaScript string. *)
Definition js (s : string) : jsstring :=
  List.map N_of_ascii (list_ascii_of_string s).

Definition jsstring_eqb (a b : jsstring) : bool := bool_decide (a = b).

(** [s.startsWith(p)] on code units. *)
Fixpoint isPrefix (p s : jsstring) : bool :=
  match p, s with
  | [], _ => true
  | _ :: _, [] => false
  | a :: p', b :: s' => N.eqb a b && isPrefix p' s'
  end.

(** Search [term] in the suffix [s] of a text; [pos] is the index of the
    first code unit of [s] in the whole text. *)
Fixpoint indexOfAux (term s : jsstring) (pos : nat) : option nat :=
  if isPrefix term s then Some pos
  else match s with
       | [] => None
       | _ :: s' => indexOfAux term s' (S pos)
       end.

(** [text.indexOf(term, from)]: [None] stands for -1.  The start position
    is clamped to the length of the text. *)
Definition indexOf (text term : jsstring) (from : nat) : option nat :=
  let start := Nat.min from (length text) in
  indexOfAux term (skipn start text) start.

(** [windowText.includes(w)]. *)
Definition includes (windowText w : jsstring) : bool :=
  match indexOf windowText w 0 with
  | Some _ => true
  | None => false
  end.

(** [s.slice(a, b)] for non-negative [a] and [b]. *)
Definition slice (a b : nat) (s : jsstring) : jsstring :=
  firstn (b - a) (skipn a s).

(** White space and line terminators removed by [String.prototype.trim]. *)
Definition isWhiteSpace (c : N) : bool :=
  ((9 <=? c) && (c <=? 13) || (c =? 0x20) || (c =? 0xA0) || (c =? 0x1680)
   || (0x2000 <=? c) && (c <=? 0x200A) || (c =? 0x2028) || (c =? 0x2029)
   || (c =? 0x202F) || (c =? 0x205F) || (c =? 0x3000) || (c =? 0xFEFF))%N.

Fixpoint trimStart (s : jsstring) : jsstring :=
  match s with
  | [] => []
  | c :: s' => if isWhiteSpace c then trimStart s' else s
  end.

Definition trimEnd (s : jsstring) : jsstring := rev (trimStart (rev s)).

Definition trim (s : jsstring) : jsstring := trimEnd (trimStart s).

(** Text made of white space only (or empty). *)
Definition isBlank (text : jsstring) : bool := forallb isWhiteSpace text.

(** Number of matches of [text.match(new RegExp(w, "g"))] for a non-empty
    pattern [w] without metacharacters: the leftmost non-overlapping
    occurrences of [w].  [skip] counts the code units of the current
    match that are still to be passed. *)
Fixpoint matchCountAux (w s : jsstring) (skip : nat) : nat :=
  match s with
  | [] => 0
  | _ :: s' =>
      match skip with
      | S k => matchCountAux w s' k
      | O => if isPrefix w s
             then S (matchCountAux w s' (length w - 1))
             else matchCountAux w s' 0
      end
  end.

Definition matchCount (w text : jsstring) : nat := matchCountAux w text 0.

(* ===================================================================== *)
(** * Content hasher *)
(* ===================================================================== *)

(** [x | 0]: wrap to a signed 32-bit integer. *)
Definition toInt32 (z : Z) : Z := ((z + 2 ^ 31) mod 2 ^ 32 - 2 ^ 31)%Z.

(** [h << 5] on a signed 32-bit integer. *)
Definition shl5 (h : Z) : Z := toInt32 (Z.shiftl h 5).

Definition simpleHash (s : jsstring) : Z :=
  Z.abs (fold_left (fun h code => toInt32 (shl5 h - h + Z.of_N code)%Z) s 0%Z).

(** One digit of [Number.prototype.toString(36)]. *)
Definition digit36 (d : Z) : N :=
  if (d <? 10)%Z then Z.to_N (48 + d) else Z.to_N (97 + (d - 10)).

(** Digits of a positive number, most significant first. *)
Fixpoint toString36Aux (fuel : nat) (n : Z) (acc : jsstring) : jsstring :=
  match fuel with
  | O => acc
  | S fuel' =>
      if (n <=? 0)%Z then acc
      else toString36Aux fuel' (n / 36)%Z (digit36 (n mod 36)%Z :: acc)
  end.

(** [n.toString(36)] for a non-negative integer below [36^7]; results of
    [simpleHash] are at most [2^31]. *)
Definition toString36 (n : Z) : jsstring :=
  if (n =? 0)%Z then js "0" else toString36Aux 7 n [].

Definition hashBase36 (s : jsstring) : jsstring := toString36 (simpleHash s).

(* ===================================================================== *)
(** * Categories, lexicon and analysis result *)
(* ===================================================================== *)

(** The five fixed labels, in source order:
    "愛情" | "切なさ" | "悲しみ" | "甘え" | "欲". *)
Inductive Category := Affection | Longing | Sadness | Amae | Desire.

Global Instance Category_eq_dec : EqDecision Category.
Proof. solve_decision. Defined.

(** The label itself, as the string the source uses. *)
Definition categoryName (c : Category) : jsstring :=
  match c with
  | Affection => [0x611B; 0x60C5]
  | Longing => [0x5207; 0x306A; 0x3055]
  | Sadness => [0x60B2; 0x3057; 0x307F]
  | Amae => [0x7518; 0x3048]
  | Desire => [0x6B32]
  end%N.

(** The array ["愛情", "切なさ", "悲しみ", "甘え", "欲"], which the source
    spells out as [categories], [catsOrder] and [CATS_FOR_HISTORY]. *)
Definition catsOrder : list Category := [Affection; Longing; Sadness; Amae; Desire].
Definition CATS_FOR_HISTORY : list Category := catsOrder.

(** [Record<Category, A>]: an object with exactly the five keys. *)
Record PerCategory (A : Type) := mkPer
  { affection : A; longing : A; sadness : A; amae : A; desire : A }.
Arguments mkPer {A}.
Arguments affection {A}.
Arguments longing {A}.
Arguments sadness {A}.
Arguments amae {A}.
Arguments desire {A}.

Definition pget {A} (r : PerCategory A) (c : Category) : A :=
  match c with
  | Affection => affection r
  | Longing => longing r
  | Sadness => sadness r
  | Amae => amae r
  | Desire => desire r
  end.

Definition pset {A} (r : PerCategory A) (c : Category) (v : A) : PerCategory A :=
  match c with
  | Affection => mkPer v (longing r) (sadness r) (amae r) (desire r)
  | Longing => mkPer (affection r) v (sadness r) (amae r) (desire r)
  | Sadness => mkPer (affection r) (longing r) v (amae r) (desire r)
  | Amae => mkPer (affection r) (longing r) (sadness r) v (desire r)
  | Desire => mkPer (affection r) (longing r) (sadness r) (amae r) v
  end.

Definition pconst {A} (v : A) : PerCategory A := mkPer v v v v v.

Definition pmap {A B} (f : A -> B) (r : PerCategory A) : PerCategory B :=
  mkPer (f (affection r)) (f (longing r)) (f (sadness r)) (f (amae r)) (f (desire r)).

Module Lexeme.
(** [weight] and [categories] are optional fields. *)
Record t := mk
  { term : jsstring; weight : option Q; categories : option (list Category) }.
End Lexeme.

Definition lexeme := Lexeme.mk.

Definition Lexicon := PerCategory (list Lexeme.t).

(** [Map<string, number>]: keys in insertion order. *)
Definition Ledger := list (jsstring * Q).

Fixpoint ledgerGet (m : Ledger) (k : jsstring) : option Q :=
  match m with
  | [] => None
  | (k', v) :: m' => if jsstring_eqb k' k then Some v else ledgerGet m' k
  end.

(** [m.set(k, v)]: an existing key keeps its place. *)
Fixpoint ledgerSet (m : Ledger) (k : jsstring) (v : Q) : Ledger :=
  match m with
  | [] => [(k, v)]
  | (k', v') :: m' =>
      if jsstring_eqb k' k then (k', v) :: m' else (k', v') :: ledgerSet m' k v
  end.

(** [m.get(k) || 0]. *)
Definition ledgerGetOr0 (m : Ledger) (k : jsstring) : Q :=
  match ledgerGet m k with
  | Some v => v
  | None => 0%Q
  end.

Module AnalysisResult.
(** [details] is a [Map<Category, Map<string, number>>]; a category
    without entry is [None]. *)
Record t := mk
  { raw : PerCategory Q;
    normalized : PerCategory Q;
    details : PerCategory (option Ledger) }.
End AnalysisResult.

(* ===================================================================== *)
(** * Keyword tables *)
(* ===================================================================== *)

Definition INTENSIFIERS : list jsstring :=
  [ [0x3068; 0x3066; 0x3082] (* とても *)
  ; [0x3059; 0x3054; 0x304F] (* すごく *)
  ; [0x3081; 0x3063; 0x3061; 0x3083] (* めっちゃ *)
  ; [0x8D85; 0x7D76] (* 超絶 *)
  ; [0x8D85] (* 超 *)
  ; [0x304B; 0x306A; 0x308A] (* かなり *)
  ; [0x672C; 0x5F53; 0x306B] (* 本当に *)
  ; [0x307B; 0x3093; 0x3068; 0x306B] (* ほんとに *)
  ; [0x3081; 0x3061; 0x3083; 0x304F; 0x3061; 0x3083] (* めちゃくちゃ *) ]%N.

Definition DIMINISHERS : list jsstring :=
  [ [0x5C11; 0x3057] (* 少し *)
  ; [0x3061; 0x3087; 0x3063; 0x3068] (* ちょっと *)
  ; [0x3084; 0x3084] (* やや *)
  ; [0x307E; 0x3042; 0x307E; 0x3042] (* まあまあ *)
  ; [0x3059; 0x3053; 0x3057] (* すこし *) ]%N.

Definition NEGATIONS : list jsstring :=
  [ [0x3058; 0x3083; 0x306A; 0x3044] (* じゃない *)
  ; [0x3067; 0x306F; 0x306A; 0x3044] (* ではない *)
  ; [0x306A; 0x3044] (* ない *)
  ; [0x306C] (* ぬ *)
  ; [0x305A] (* ず *) ]%N.

Definition EMOJI_BOOST (c : Category) : list jsstring :=
  match c with
  | Affection => [ [0x2764; 0xFE0F]; [0xD83D; 0xDC95]; [0xD83D; 0xDE18];
                   [0xD83D; 0xDC96]; [0xD83E; 0xDD70] ]
  | Longing => [ [0xD83E; 0xDD7A]; [0xD83D; 0xDE22] ]
  | Sadness => [ [0xD83D; 0xDE22]; [0xD83D; 0xDE2D] ]
  | Amae => [ [0xD83E; 0xDD32]; [0xD83E; 0xDD17] ]
  | Desire => [ [0xD83D; 0xDD25]; [0xD83D; 0xDCA6]; [0xD83D; 0xDE0F] ]
  end%N.

Definition bondBoosters : list jsstring :=
  [ [0x3042; 0x306A; 0x305F] (* あなた *)
  ; [0x541B] (* 君 *)
  ; [0x59BB] (* 妻 *)
  ; [0x592B] (* 夫 *)
  ; [0x4E8C; 0x4EBA] (* 二人 *)
  ; [0x305A; 0x3063; 0x3068; 0x4E00; 0x7DD2] (* ずっと一緒 *)
  ; [0x7D04; 0x675F] (* 約束 *)
  ; [0x8A93; 0x3044] (* 誓い *) ]%N.

Definition RELATION_META : jsstring := js "__RELATION_META__".

Definition DEFAULT_LEXICON : Lexicon :=
  {|
    affection := [
      lexeme [0x611B; 0x3057; 0x3066; 0x308B]%N (Some 3%Q) None (* 愛してる *);
      lexeme [0x611B; 0x3057; 0x3066; 0x308B; 0x3088]%N (Some 3%Q) None (* 愛してるよ *);
      lexeme [0x597D; 0x304D]%N (Some 2%Q) None (* 好き *);
      lexeme [0x5927; 0x597D; 0x304D]%N (Some 3%Q) None (* 大好き *);
      lexeme [0x3044; 0x3068; 0x3057; 0x3044]%N (Some 2%Q) None (* いとしい *);
      lexeme [0x5927; 0x5207]%N (Some 2%Q) None (* 大切 *);
      lexeme [0x305A; 0x3063; 0x3068]%N (Some 1.5%Q) None (* ずっと *);
      lexeme [0x62B1; 0x304D; 0x3057; 0x3081]%N (Some 2%Q) None (* 抱きしめ *);
      lexeme [0x304E; 0x3085]%N (Some 1.8%Q) None (* ぎゅ *);
      lexeme [0x30AD; 0x30B9]%N (Some 1.6%Q) None (* キス *);
      lexeme [0x305D; 0x3070; 0x306B]%N (Some 1.4%Q) None (* そばに *);
      lexeme [0x4E00; 0x7DD2; 0x306B]%N (Some 1.2%Q) None (* 一緒に *);
      lexeme [0x8A93; 0x3046]%N (Some 1.8%Q) None (* 誓う *) ];
    longing := [
      lexeme [0x5207; 0x306A; 0x3044]%N (Some 3%Q) None (* 切ない *);
      lexeme [0x604B; 0x3057; 0x3044]%N (Some 2.2%Q) (Some [Affection; Longing]) (* 恋しい *);
      lexeme [0x4F1A; 0x3044; 0x305F; 0x3044]%N (Some 2.4%Q) (Some [Affection; Longing]) (* 会いたい *);
      lexeme [0x307E; 0x3060]%N (Some 1%Q) None (* まだ *);
      lexeme [0x3082; 0x3057]%N (Some 1.2%Q) None (* もし *);
      lexeme [0x3044; 0x3064; 0x304B]%N (Some 1.2%Q) None (* いつか *);
      lexeme [0x5C4A; 0x304B]%N (Some 1.4%Q) None (* 届か *);
      lexeme [0x8DB3; 0x308A; 0x306A; 0x3044]%N (Some 1.6%Q) None (* 足りない *);
      lexeme [0x305F; 0x3081; 0x606F]%N (Some 1.6%Q) None (* ため息 *) ];
    sadness := [
      lexeme [0x60B2; 0x3057; 0x3044]%N (Some 3%Q) None (* 悲しい *);
      lexeme [0x6D99]%N (Some 2.4%Q) None (* 涙 *);
      lexeme [0x8F9B; 0x3044]%N (Some 2.4%Q) None (* 辛い *);
      lexeme [0x82E6; 0x3057; 0x3044]%N (Some 2.2%Q) None (* 苦しい *);
      lexeme [0x5BC2; 0x3057; 0x3044]%N (Some 2.2%Q) None (* 寂しい *);
      lexeme [0x75DB; 0x3044]%N (Some 1.6%Q) None (* 痛い *);
      lexeme [0x6CE3]%N (Some 2.0%Q) None (* 泣 *);
      lexeme [0x55AA; 0x5931]%N (Some 2.2%Q) None (* 喪失 *) ];
    amae := [
      lexeme [0x306D; 0x3048]%N (Some 1.4%Q) None (* ねえ *);
      lexeme [0x304A; 0x9858; 0x3044]%N (Some 1.8%Q) None (* お願い *);
      lexeme [0x3060; 0x3063; 0x3053]%N (Some 2.0%Q) None (* だっこ *);
      lexeme [0x64AB; 0x3067; 0x3066]%N (Some 1.8%Q) None (* 撫でて *);
      lexeme [0x3088; 0x3057; 0x3088; 0x3057]%N (Some 1.6%Q) None (* よしよし *);
      lexeme [0x305D; 0x3070; 0x306B; 0x3044; 0x3066]%N (Some 2.0%Q) None (* そばにいて *);
      lexeme [0x304E; 0x3085; 0x30FC]%N (Some 1.8%Q) None (* ぎゅー *);
      lexeme [0x7518; 0x3048]%N (Some 2.0%Q) None (* 甘え *);
      lexeme [0x983C; 0x3063; 0x3066]%N (Some 1.6%Q) None (* 頼って *) ];
    desire := [
      lexeme [0x6B32; 0x3057; 0x3044]%N (Some 2.0%Q) None (* 欲しい *);
      lexeme [0x6B32]%N (Some 2.2%Q) None (* 欲 *);
      lexeme [0x3082; 0x3063; 0x3068]%N (Some 1.8%Q) None (* もっと *);
      lexeme [0x6C42; 0x3081]%N (Some 2.0%Q) None (* 求め *);
      lexeme [0x304F; 0x3060; 0x3055; 0x3044]%N (Some 1.2%Q) None (* ください *);
      lexeme [0x3057; 0x3066]%N (Some 1.1%Q) None (* して *);
      lexeme [0x89E6; 0x308C]%N (Some 1.6%Q) (Some [Affection; Desire]) (* 触れ *);
      lexeme [0x62B1; 0x3044]%N (Some 1.6%Q) (Some [Affection; Desire]) (* 抱い *);
      lexeme [0x71B1]%N (Some 1.4%Q) None (* 熱 *) ]
  |}.

(* ===================================================================== *)
(** * Scoring engine *)
(* ===================================================================== *)

(** The [while (true)] loop of [countSubstringIndices].  Every iteration
    costs one unit of [fuel]; [None] means the loop has not finished
    within [fuel] iterations. *)
Fixpoint countSubstringIndicesLoop (fuel : nat) (text term : jsstring)
    (from : nat) (indices : list nat) : option (list nat) :=
  match fuel with
  | O => None
  | S fuel' =>
      match indexOf text term from with
      | None => Some indices
      | Some idx =>
          countSubstringIndicesLoop fuel' text term (idx + length term) (indices ++ [idx])
      end
  end.

Definition countSubstringIndices (fuel : nat) (text term : jsstring) : option (list nat) :=
  countSubstringIndicesLoop fuel text term 0 [].

Definition windowHas (wordList : list jsstring) (windowText : jsstring) : bool :=
  existsb (fun w => includes windowText w) wordList.

Definition baseEmojiBoost (text : jsstring) (cat : Category) : Q :=
  let c := fold_left (fun c e => c + matchCount e text) (EMOJI_BOOST cat) 0 in
  (inject_Z (Z.of_nat c) * 1.2)%Q.

(** The accumulators [raw] and [details] of a run on non-blank text. Every
    category has its ledger from the start ([details.set(c, new Map())]),
    so [details.get(cc)!] is total here. *)
Record Work := mkWork { w_raw : PerCategory Q; w_details : PerCategory Ledger }.

(** [t.slice(Math.max(0, idx - 8), idx)]. *)
Definition leftWindow (t : jsstring) (idx : nat) : jsstring :=
  slice (Nat.max 0 (idx - 8)) idx t.

(** [t.slice(idx + lex.term.length, idx + lex.term.length + 6)]. *)
Definition rightWindow (t term : jsstring) (idx : nat) : jsstring :=
  slice (idx + length term) (idx + length term + 6) t.

(** The three [if]s on [factor]. *)
Definition contributionFactor (left right : jsstring) : Q :=
  let factor := 1%Q in
  let factor := if windowHas INTENSIFIERS left then (factor * 1.5)%Q else factor in
  let factor := if windowHas DIMINISHERS left then (factor * 0.7)%Q else factor in
  let factor := if windowHas NEGATIONS right then 0%Q else factor in
  factor.

(** [weight * factor] of the occurrence of [lex.term] at [idx]. *)
Definition occurrenceDelta (t : jsstring) (lex : Lexeme.t) (idx : nat) : Q :=
  let weight := default 1%Q (Lexeme.weight lex) in
  (weight * contributionFactor (leftWindow t idx) (rightWindow t (Lexeme.term lex) idx))%Q.

(** [lex.categories ?? [cat]]: only an absent field falls back. *)
Definition targetCategories (cat : Category) (lex : Lexeme.t) : list Category :=
  default [cat] (Lexeme.categories lex).

(** Body of [for (const cc of cats)]. *)
Definition addContribution (term : jsstring) (delta : Q) (st : Work) (cc : Category) : Work :=
  let m := pget (w_details st) cc in
  {| w_raw := pset (w_raw st) cc (pget (w_raw st) cc + delta)%Q;
     w_details := pset (w_details st) cc (ledgerSet m term (ledgerGetOr0 m term + delta)%Q) |}.

(** Body of [for (const idx of idxs)]. *)
Definition scoreOccurrence (t : jsstring) (cat : Category) (lex : Lexeme.t)
    (st : Work) (idx : nat) : Work :=
  let delta := occurrenceDelta t lex idx in
  let cats := targetCategories cat lex in
  fold_left (addContribution (Lexeme.term lex) delta) cats st.

(** Body of [for (const lex of lexicon[cat])]. *)
Definition scoreLexeme (fuel : nat) (t : jsstring) (cat : Category)
    (st : Work) (lex : Lexeme.t) : option Work :=
  idxs ← countSubstringIndices fuel t (Lexeme.term lex);
  Some (fold_left (scoreOccurrence t cat lex) idxs st).

(** A [for ... of] loop whose body may fail to finish. *)
Fixpoint forEachM {A S : Type} (body : S -> A -> option S) (l : list A) (s : S) : option S :=
  match l with
  | [] => Some s
  | x :: l' => s' ← body s x; forEachM body l' s'
  end.

Definition scoreCategory (fuel : nat) (t : jsstring) (lexicon : Lexicon)
    (st : Work) (cat : Category) : option Work :=
  forEachM (scoreLexeme fuel t cat) (pget lexicon cat) st.

(** The [if (relationBoost)] block. *)
Definition relationBonus (t : jsstring) : Q :=
  fold_left (fun bonus w => bonus + inject_Z (Z.of_nat (matchCount w t)) * 0.6)%Q bondBoosters 0%Q.

Definition applyRelationBoost (t : jsstring) (st : Work) : Work :=
  let bonus := relationBonus t in
  let raw := pset (w_raw st) Affection (pget (w_raw st) Affection + bonus)%Q in
  if Qeq_bool bonus 0 then {| w_raw := raw; w_details := w_details st |}
  else
    let map := pget (w_details st) Affection in
    {| w_raw := raw;
       w_details := pset (w_details st) Affection
                      (ledgerSet map RELATION_META (ledgerGetOr0 map RELATION_META + bonus)%Q) |}.

(** [(t.match(/[!！]/g) || []).length]. *)
Definition countExclam (t : jsstring) : nat :=
  length (List.filter (fun c => (c =? 0x21) || (c =? 0xFF01))%N t).

Definition lengthNorm (t : jsstring) : Q :=
  Qmax 0.7 (Qmin 1.0 (180 / Qmax 60 (inject_Z (Z.of_nat (length t)))))%Q.

Definition amp (t : jsstring) : Q :=
  let exclamAmp := Qmin 0.5 (inject_Z (Z.of_nat (countExclam t)) * 0.05)%Q in
  (1 + exclamAmp)%Q.

(** [Math.max(0.0001, ...categories.map((c) => raw[c]))]. *)
Definition maxv (raw : PerCategory Q) : Q :=
  fold_left Qmax (List.map (pget raw) catsOrder) 0.0001%Q.

Definition normalize (raw : PerCategory Q) : PerCategory Q :=
  let maxv := maxv raw in
  {| affection := (pget raw Affection / maxv * 100)%Q;
     longing := (pget raw Longing / maxv * 100)%Q;
     sadness := (pget raw Sadness / maxv * 100)%Q;
     amae := (pget raw Amae / maxv * 100)%Q;
     desire := (pget raw Desire / maxv * 100)%Q |}.

Definition zeroScores : PerCategory Q := mkPer 0%Q 0%Q 0%Q 0%Q 0%Q.

(** Raw scores of non-blank [t] once every loop has finished. *)
Definition finishRaw (t : jsstring) (raw : PerCategory Q) : PerCategory Q :=
  let raw := fold_left (fun raw c => pset raw c (pget raw c + baseEmojiBoost t c)%Q) catsOrder raw in
  fold_left (fun raw c => pset raw c (pget raw c * (amp t * lengthNorm t))%Q) catsOrder raw.

(** [analyze(text, lexicon, relationBoost)].  [None]: some
    [countSubstringIndices] loop did not finish within [fuel] iterations. *)
Definition analyze (fuel : nat) (text : jsstring) (lexicon : Lexicon)
    (relationBoost : bool) : option AnalysisResult.t :=
  let t := trim text in
  match t with
  | [] =>
      Some {| AnalysisResult.raw := zeroScores;
              AnalysisResult.normalized := zeroScores;
              AnalysisResult.details := pconst None |}
  | _ :: _ =>
      let st := {| w_raw := zeroScores; w_details := pconst [] |} in
      let st := if relationBoost then applyRelationBoost t st else st in
      st ← forEachM (scoreCategory fuel t lexicon) catsOrder st;
      let raw := finishRaw t (w_raw st) in
      Some {| AnalysisResult.raw := raw;
              AnalysisResult.normalized := normalize raw;
              AnalysisResult.details := pmap Some (w_details st) |}
  end.

(** The [leaders] memo of the component; [commitHistory] computes
    [localLeaders] from a non-blank text with the same expression. *)
Definition leaders (text : jsstring) (result : AnalysisResult.t) : list Category :=
  let src := AnalysisResult.normalized result in
  let vals := List.map (pget src) catsOrder in
  let max := fold_left Qmax (tl vals) (hd 0%Q vals) in
  match trim text with
  | [] => []
  | _ :: _ =>
      if Qle_bool max 0%Q then []
      else List.filter (fun k => Qle_bool (Qabs (pget src k - max)%Q) 0.0001%Q) catsOrder
  end.

(* ===================================================================== *)
(** * History items *)
(* ===================================================================== *)

Module HistItem.
(** [pinned] is an optional field. *)
Record t := mk
  { id : jsstring;
    ts : jsstring;
    snip : jsstring;
    full : jsstring;
    norm : list Q;
    lead : list Category;
    top : PerCategory (list (jsstring * Q));
    ver : jsstring;
    lex : jsstring;
    pinned : option bool }.
End HistItem.

(** Truthiness of [it.pinned]. *)
Definition isPinned (it : HistItem.t) : bool := default false (HistItem.pinned it).

(** What the run-time environment supplies to [makeHistItem]:
    [Date.now().toString(36)], [new Date().toISOString()] and
    [JSON.stringify] on a lexicon. *)
Record Host := mkHost
  { nowBase36 : jsstring;
    nowISO : jsstring;
    stringifyLexicon : Lexicon -> jsstring }.

Definition hashLexicon (host : Host) (lex : Lexicon) : jsstring :=
  hashBase36 (stringifyLexicon host lex).

(** [Math.round(n * 10) / 10]; [Math.round] rounds halves up.  The stored
    number is kept in lowest terms. *)
Definition round1 (n : Q) : Q := Qred (inject_Z (Qfloor (n * 10 + 0.5)) / 10)%Q.

(** Insertion of [x] in front of a list sorted by [(a, b) => b[1] - a[1]],
    behind every entry whose value is strictly larger. *)
Fixpoint insertByValueDesc (x : jsstring * Q) (l : list (jsstring * Q)) : list (jsstring * Q) :=
  match l with
  | [] => [x]
  | y :: l' =>
      if Qlt_le_dec (snd x) (snd y) then y :: insertByValueDesc x l' else x :: l
  end.

(** [arr.sort((a, b) => b[1] - a[1])]: the stable descending sort. *)
Definition sortByValueDesc (l : list (jsstring * Q)) : list (jsstring * Q) :=
  fold_right insertByValueDesc [] l.

(** The entries of one ledger shown as top terms. *)
Definition topOf (m : option Ledger) : list (jsstring * Q) :=
  match m with
  | Some m =>
      List.map (fun e => (fst e, round1 (snd e)))
        (firstn 3
           (sortByValueDesc
              (List.filter (fun e => negb (isPrefix (js "__") (fst e))) m)))
  | None => []
  end.

Definition makeHistItem (host : Host) (APP_VERSION : jsstring) (text : jsstring) (analysis : AnalysisResult.t)
    (leaders : list Category) (lexicon : Lexicon) : HistItem.t :=
  let clean := trim text in
  let full := slice 0 1000 clean in
  let snip := slice 0 120 clean in
  let norm := List.map (fun c => round1 (pget (AnalysisResult.normalized analysis) c))
                CATS_FOR_HISTORY in
  let top := pmap topOf (AnalysisResult.details analysis) in
  let id := nowBase36 host ++ js "-" ++ hashBase36 full in
  {| HistItem.id := id;
     HistItem.ts := nowISO host;
     HistItem.snip := snip;
     HistItem.full := full;
     HistItem.norm := norm;
     HistItem.lead := leaders;
     HistItem.top := top;
     HistItem.ver := APP_VERSION;
     HistItem.lex := hashLexicon host lexicon;
     HistItem.pinned := None |}.

(* ===================================================================== *)
(** * History store *)
(* ===================================================================== *)

Definition HISTORY_MAX_DEFAULT : nat := 500.
Definition HISTORY_MIN_CHARS : nat := 10.

(** [arr.findIndex(p)]; [None] stands for -1. *)
Fixpoint findIndex {A : Type} (p : A -> bool) (l : list A) : option nat :=
  match l with
  | [] => None
  | x :: l' => if p x then Some 0 else option_map S (findIndex p l')
  end.

(** What [appendWithLimit] hands back: the array [existing] it was given
    (the caller tests [next !== history]) or a newly built array. *)
Inductive Appended :=
  | SameArray
  | NewArray (next : list HistItem.t).

Definition arrayOf (existing : list HistItem.t) (r : Appended) : list HistItem.t :=
  match r with
  | SameArray => existing
  | NewArray next => next
  end.

Inductive ToastKind := ok | warn | error.

Record Toast := mkToast { msg : jsstring; kind : ToastKind }.

(** The state the history callbacks read and write: React state
    ([text], [lexicon], [relationBoost], [history], [toast]), the refs
    [lastSavedHashRef] and [historyHashSet], and the array last written to
    local storage by [saveHistory]. *)
Record AppState := mkState
  { text : jsstring;
    lexicon : Lexicon;
    relationBoost : bool;
    history : list HistItem.t;
    lastSavedHash : option jsstring;
    historyHashSet : gset jsstring;
    savedHistory : option (list HistItem.t);
    toast : option Toast }.

Definition setHistoryAndSave (next : list HistItem.t) (s : AppState) : AppState :=
  {| text := text s; lexicon := lexicon s; relationBoost := relationBoost s;
     history := next;
     lastSavedHash := lastSavedHash s;
     historyHashSet := historyHashSet s;
     savedHistory := Some next;
     toast := toast s |}.

Definition setLastSavedHash (h : option jsstring) (s : AppState) : AppState :=
  {| text := text s; lexicon := lexicon s; relationBoost := relationBoost s;
     history := history s;
     lastSavedHash := h;
     historyHashSet := historyHashSet s;
     savedHistory := savedHistory s;
     toast := toast s |}.

Definition setHashSet (hs : gset jsstring) (s : AppState) : AppState :=
  {| text := text s; lexicon := lexicon s; relationBoost := relationBoost s;
     history := history s;
     lastSavedHash := lastSavedHash s;
     historyHashSet := hs;
     savedHistory := savedHistory s;
     toast := toast s |}.

Definition setToast (t : option Toast) (s : AppState) : AppState :=
  {| text := text s; lexicon := lexicon s; relationBoost := relationBoost s;
     history := history s;
     lastSavedHash := lastSavedHash s;
     historyHashSet := historyHashSet s;
     savedHistory := savedHistory s;
     toast := t |}.

(** [localLeaders] of [commitHistory]. *)
Definition localLeaders (src : PerCategory Q) : list Category :=
  let vals := List.map (pget src) catsOrder in
  let max := fold_left Qmax (tl vals) (hd 0%Q vals) in
  if Qle_bool max 0%Q then []
  else List.filter (fun k => Qle_bool (Qabs (pget src k - max)%Q) 0.0001%Q) catsOrder.

(** The eviction loop of [appendWithLimit]:
    [while (next.length > max) { idx = next.findIndex(it => !it.pinned);
       if (idx === -1) break; next.splice(idx, 1); }]. *)
Equations? evictLoop (maxN : nat) (next : list HistItem.t) : list HistItem.t
    by wf (length next) lt :=
  evictLoop maxN next with inspect (maxN <? length next) := {
    | @exist _ _ false _ => next
    | @exist _ _ true _ with inspect (findIndex (fun it => negb (isPinned it)) next) := {
        | @exist _ _ None _ => next
        | @exist _ _ (Some idx) Hidx => evictLoop maxN (delete idx next) } }.
Proof.
  assert (Hlt : forall (l : list HistItem.t) i,
             findIndex (fun it => negb (isPinned it)) l = Some i -> i < length l).
  { clear. induction l as [|x l IH]; intros i; simpl; [discriminate|].
    destruct (negb (isPinned x)); [intros [= <-]; lia|].
    destruct (findIndex _ l) as [j|]; simpl; [|discriminate].
    intros [= <-]. specialize (IH j eq_refl). lia. }
  apply Hlt in Hidx. rewrite length_delete; [lia|].
  apply lookup_lt_is_Some. exact Hidx.
Qed.

(** [togglePinHistory], the same in both versions. *)
Definition togglePinHistory (id : jsstring) (s : AppState) : AppState :=
  let next := List.map (fun it =>
                if jsstring_eqb (HistItem.id it) id
                then {| HistItem.id := HistItem.id it; HistItem.ts := HistItem.ts it;
                        HistItem.snip := HistItem.snip it; HistItem.full := HistItem.full it;
                        HistItem.norm := HistItem.norm it; HistItem.lead := HistItem.lead it;
                        HistItem.top := HistItem.top it; HistItem.ver := HistItem.ver it;
                        HistItem.lex := HistItem.lex it;
                        HistItem.pinned := Some (negb (isPinned it)) |}
                else it) (history s) in
  setHistoryAndSave next s.

Module Guarded.
(** Application version 1.3.0. *)
Definition APP_VERSION : jsstring := js "1.3.0".

Definition appendWithLimit (existing : list HistItem.t) (draft : HistItem.t)
    (max : nat) : Appended :=
  let h := hashBase36 (HistItem.full draft) in
  let recent := skipn (length existing - 10) existing in
  if existsb (fun it => jsstring_eqb (hashBase36 (HistItem.full it)) h) recent
  then SameArray
  else
    let next := existing ++ [draft] in
    NewArray (evictLoop max next).

Definition commitHistory (host : Host) (fuel : nat) (s : AppState) : option AppState :=
  let clean := trim (text s) in
  if length clean <? HISTORY_MIN_CHARS then Some s
  else
    let full := slice 0 1000 clean in
    let h := hashBase36 full in
    if bool_decide (lastSavedHash s = Some h) then Some s
    else
      localResult ← analyze fuel clean (lexicon s) (relationBoost s);
      let item := makeHistItem host APP_VERSION clean localResult
                    (localLeaders (AnalysisResult.normalized localResult)) (lexicon s) in
      match appendWithLimit (history s) item HISTORY_MAX_DEFAULT with
      | SameArray => Some s
      | NewArray next => Some (setLastSavedHash (Some h) (setHistoryAndSave next s))
      end.

Definition pinnedWarning : Toast :=
  {| msg := [0x30D4; 0x30F3; 0x6E08; 0x307F; 0x306F; 0x524A; 0x9664; 0x3067;
             0x304D; 0x307E; 0x305B; 0x3093; 0xFF08; 0x5148; 0x306B; 0x30D4;
             0x30F3; 0x89E3; 0x9664; 0x3057; 0x3066; 0x306D; 0xFF09]%N;
     kind := warn |}.

Definition deleteHistoryItem (id : jsstring) (s : AppState) : AppState :=
  let prev := history s in
  let target := List.find (fun it => jsstring_eqb (HistItem.id it) id) prev in
  if default false (isPinned <$> target)
  then setToast (Some pinnedWarning) s
  else
    let next := List.filter (fun it => negb (jsstring_eqb (HistItem.id it) id)) prev in
    setHistoryAndSave next s.
End Guarded.

Module HashSetDedup.
(** Application version 1.0.1. *)
Definition APP_VERSION : jsstring := js "1.0.1".

(** The eviction loop, which here also forgets the hash of every
    removed item. *)
Equations? evictLoop (maxN : nat) (next : list HistItem.t) (hashSet : gset jsstring)
    : list HistItem.t * gset jsstring by wf (length next) lt :=
  evictLoop maxN next hashSet with inspect (maxN <? length next) := {
    | @exist _ _ false _ => (next, hashSet)
    | @exist _ _ true _ with inspect (findIndex (fun it => negb (isPinned it)) next) := {
        | @exist _ _ None _ => (next, hashSet)
        | @exist _ _ (Some idx) Hidx with inspect (next !! idx) := {
            | @exist _ _ None _ => (next, hashSet)
            | @exist _ _ (Some removed) Hrem =>
                evictLoop maxN (delete idx next)
                  (hashSet ∖ {[ hashBase36 (HistItem.full removed) ]}) } } }.
Proof.
  rewrite length_delete; [|by eexists].
  apply lookup_lt_Some in Hrem. lia.
Qed.

Definition appendWithLimit (existing : list HistItem.t) (draft : HistItem.t)
    (max : nat) (hashSet : gset jsstring) : Appended * gset jsstring :=
  let h := hashBase36 (HistItem.full draft) in
  if bool_decide (h ∈ hashSet) then (SameArray, hashSet)
  else
    let hashSet := {[ h ]} ∪ hashSet in
    let next := existing ++ [draft] in
    let '(next, hashSet) := evictLoop max next hashSet in
    (NewArray next, hashSet).

Definition commitHistory (host : Host) (fuel : nat) (s : AppState) : option AppState :=
  let clean := trim (text s) in
  match clean with
  | [] => Some s
  | _ :: _ =>
      let full := slice 0 1000 clean in
      let h := hashBase36 full in
      if bool_decide (lastSavedHash s = Some h) then Some s
      else
        localResult ← analyze fuel clean (lexicon s) (relationBoost s);
        let item := makeHistItem host APP_VERSION clean localResult
                      (localLeaders (AnalysisResult.normalized localResult)) (lexicon s) in
        match appendWithLimit (history s) item HISTORY_MAX_DEFAULT (historyHashSet s) with
        | (SameArray, hashSet) => Some (setHashSet hashSet s)
        | (NewArray next, hashSet) =>
            Some (setLastSavedHash (Some h) (setHistoryAndSave next (setHashSet hashSet s)))
        end
  end.

Definition deleteHistoryItem (id : jsstring) (s : AppState) : AppState :=
  let prev := history s in
  let next := List.filter (fun it => negb (jsstring_eqb (HistItem.id it) id)) prev in
  let deleted := List.find (fun it => jsstring_eqb (HistItem.id it) id) prev in
  let hashSet :=
    match deleted with
    | Some deleted => historyHashSet s ∖ {[ hashBase36 (HistItem.full deleted) ]}
    | None => historyHashSet s
    end in
  setHistoryAndSave next (setHashSet hashSet s).
End HashSetDedup.

(* ===================================================================== *)
(** * History exchange format *)
(* ===================================================================== *)

(** JSON values, which are also the run-time shape of what [JSON.parse]
    returns.  An object lists its own properties in order. *)
#[local] Set Warnings "-register-all".
Inductive json :=
  | JNull
  | JBool (b : bool)
  | JNum (q : Q)
  | JStr (s : jsstring)
  | JArr (items : list json)
  | JObj (fields : list (jsstring * json)).

(** [x.key]; [None] stands for [undefined]. *)
Fixpoint getField (key : jsstring) (fields : list (jsstring * json)) : option json :=
  match fields with
  | [] => None
  | (k, v) :: fields' => if jsstring_eqb k key then Some v else getField key fields'
  end.

(** [typeof v === "string"] for a property value. *)
Definition isString (v : option json) : bool :=
  match v with
  | Some (JStr _) => true
  | _ => false
  end.

Definition termPairToJSON (e : jsstring * Q) : json := JArr [JStr (fst e); JNum (snd e)].

(** The object built by [makeHistItem], with [pinned] as the last
    property once [togglePinHistory] has set it. *)
Definition histItemToJSON (it : HistItem.t) : json :=
  JObj
    ([ (js "id", JStr (HistItem.id it));
       (js "ts", JStr (HistItem.ts it));
       (js "snip", JStr (HistItem.snip it));
       (js "full", JStr (HistItem.full it));
       (js "norm", JArr (List.map JNum (HistItem.norm it)));
       (js "lead", JArr (List.map (fun c => JStr (categoryName c)) (HistItem.lead it)));
       (js "top",
        JObj (List.map (fun c =>
                (categoryName c, JArr (List.map termPairToJSON (pget (HistItem.top it) c))))
              CATS_FOR_HISTORY));
       (js "ver", JStr (HistItem.ver it));
       (js "lex", JStr (HistItem.lex it)) ]
     ++ match HistItem.pinned it with
        | Some b => [(js "pinned", JBool b)]
        | None => []
        end).

Definition historyToJSON (history : list HistItem.t) : json :=
  JArr (List.map histItemToJSON history).

(** Reading a JSON value at the type [HistItem]. *)
Definition asString (v : option json) : option jsstring :=
  match v with
  | Some (JStr s) => Some s
  | _ => None
  end.

Definition asNumber (v : json) : option Q :=
  match v with
  | JNum q => Some q
  | _ => None
  end.

Definition categoryOfName (s : jsstring) : option Category :=
  List.find (fun c => jsstring_eqb (categoryName c) s) catsOrder.

Definition asCategory (v : json) : option Category :=
  match v with
  | JStr s => categoryOfName s
  | _ => None
  end.

Definition asTermPair (v : json) : option (jsstring * Q) :=
  match v with
  | JArr [JStr t; JNum q] => Some (t, q)
  | _ => None
  end.

Definition asArrayOf {A : Type} (read : json -> option A) (v : option json) : option (list A) :=
  match v with
  | Some (JArr items) => mapM read items
  | _ => None
  end.

Definition asTopTerms (v : option json) : option (PerCategory (list (jsstring * Q))) :=
  match v with
  | Some (JObj fields) =>
      a ← asArrayOf asTermPair (getField (categoryName Affection) fields);
      l ← asArrayOf asTermPair (getField (categoryName Longing) fields);
      s ← asArrayOf asTermPair (getField (categoryName Sadness) fields);
      m ← asArrayOf asTermPair (getField (categoryName Amae) fields);
      d ← asArrayOf asTermPair (getField (categoryName Desire) fields);
      Some (mkPer a l s m d)
  | _ => None
  end.

Definition asPinned (v : option json) : option (option bool) :=
  match v with
  | None => Some None
  | Some (JBool b) => Some (Some b)
  | Some _ => None
  end.

Definition asHistItem (v : json) : option HistItem.t :=
  match v with
  | JObj fields =>
      id ← asString (getField (js "id") fields);
      ts ← asString (getField (js "ts") fields);
      snip ← asString (getField (js "snip") fields);
      full ← asString (getField (js "full") fields);
      norm ← asArrayOf asNumber (getField (js "norm") fields);
      lead ← asArrayOf asCategory (getField (js "lead") fields);
      top ← asTopTerms (getField (js "top") fields);
      ver ← asString (getField (js "ver") fields);
      lex ← asString (getField (js "lex") fields);
      pinned ← asPinned (getField (js "pinned") fields);
      Some (HistItem.mk id ts snip full norm lead top ver lex pinned)
  | _ => None
  end.

(** The array [parsed as HistItem[]] read at its declared type. *)
Definition typedHistory (items : list json) : option (list HistItem.t) :=
  mapM asHistItem items.

(** The test of [parsed.every(...)]:
    [x && typeof x.id === "string" && typeof x.ts === "string"
       && typeof x.full === "string"]. *)
Definition validImportItem (x : json) : bool :=
  match x with
  | JObj fields =>
      isString (getField (js "id") fields)
      && isString (getField (js "ts") fields)
      && isString (getField (js "full") fields)
  | _ => false
  end.

Inductive ImportOutcome :=
  | ImportAlert
  | ImportReplaced (parsed : list json).

Section JSONHost.
(** [JSON.stringify(value, null, indent)] and [JSON.parse], the latter
    with [None] for a thrown [SyntaxError]. *)
Variable JSON_stringify : json -> nat -> jsstring.
Variable JSON_parse : jsstring -> option json.

(** The text shown by [doExportHistory]. *)
Definition doExportHistory (history : list HistItem.t) : jsstring :=
  JSON_stringify (historyToJSON history) 2.

(** The [reader.onload] handler of [handleImportHistoryInput] on the
    text of the chosen file: the alert, or the array that replaces the
    history and is saved. *)
Definition handleImportHistoryInput (fileText : jsstring) : ImportOutcome :=
  match JSON_parse fileText with
  | Some (JArr parsed) =>
      if forallb validImportItem parsed then ImportReplaced parsed else ImportAlert
  | _ => ImportAlert
  end.
End JSONHost.

(* ===================================================================== *)
(** * A JSON text codec *)
(* ===================================================================== *)

(** A stand-in for the host's [JSON.stringify] and [JSON.parse], used to
    run export and import on concrete histories.  It writes the layout of
    [JSON.stringify(value, null, gap)] and reads back what it writes:
    [null], [true], [false], decimal numbers without exponent, strings
    with escapes, arrays and objects. *)
Module SampleJSON.

Fixpoint decimalAux (fuel : nat) (n : Z) (acc : jsstring) : jsstring :=
  match fuel with
  | O => acc
  | S fuel' =>
      if (n <=? 0)%Z then acc
      else decimalAux fuel' (n / 10)%Z (Z.to_N (48 + n mod 10) :: acc)
  end.

(** Decimal digits of a non-negative integer. *)
Definition decimal (n : Z) : jsstring :=
  if (n =? 0)%Z then js "0" else decimalAux (S (Z.to_nat (Z.log2 n))) n [].

(** The least [k], at most [k + fuel], with [d] dividing [10^k]. *)
Fixpoint decimalPlaces (fuel k : nat) (d : Z) : option nat :=
  if ((10 ^ Z.of_nat k) mod d =? 0)%Z then Some k
  else match fuel with
       | O => None
       | S fuel' => decimalPlaces fuel' (S k) d
       end.

(** A number with a finite decimal expansion is written in full; any
    other is written [null], as a non-finite number is. *)
Definition stringifyNumber (q : Q) : jsstring :=
  let q := Qred q in
  let n := Qnum q in
  let d := Z.pos (Qden q) in
  match decimalPlaces 400 0 d with
  | None => js "null"
  | Some k =>
      let scale := (10 ^ Z.of_nat k)%Z in
      let m := (Z.abs n * scale / d)%Z in
      let sign := if (n <? 0)%Z then js "-" else [] in
      let whole := decimal (m / scale)%Z in
      match k with
      | O => sign ++ whole
      | S _ => sign ++ whole ++ js "." ++ tl (decimal (scale + m mod scale)%Z)
      end
  end.

Definition hexDigit (d : N) : N := (if d <? 10 then 48 + d else 87 + d)%N.

Definition escapeUnit (c : N) : jsstring :=
  if (c =? 34)%N then js "\" ++ [34%N]
  else if (c =? 92)%N then js "\\"
  else if (c =? 8)%N then js "\b"
  else if (c =? 9)%N then js "\t"
  else if (c =? 10)%N then js "\n"
  else if (c =? 12)%N then js "\f"
  else if (c =? 13)%N then js "\r"
  else if ((c <? 32) || (0xD800 <=? c) && (c <=? 0xDFFF))%N
       then js "\u" ++ [hexDigit (c / 4096 mod 16); hexDigit (c / 256 mod 16);
                        hexDigit (c / 16 mod 16); hexDigit (c mod 16)]%N
  else [c].

Definition stringifyString (s : jsstring) : jsstring :=
  [34%N] ++ concat (List.map escapeUnit s) ++ [34%N].

Definition newline (gap level : nat) : jsstring :=
  match gap with
  | O => []
  | S _ => 10%N :: repeat 32%N (gap * level)
  end.

Definition colon (gap : nat) : jsstring :=
  match gap with
  | O => js ":"
  | S _ => js ": "
  end.

Fixpoint stringifyAt (gap level : nat) (v : json) {struct v} : jsstring :=
  match v with
  | JNull => js "null"
  | JBool true => js "true"
  | JBool false => js "false"
  | JNum q => stringifyNumber q
  | JStr s => stringifyString s
  | JArr [] => js "[]"
  | JArr items =>
      js "[" ++ newline gap (S level)
      ++ (fix each (l : list json) : jsstring :=
            match l with
            | [] => []
            | [x] => stringifyAt gap (S level) x
            | x :: l' =>
                stringifyAt gap (S level) x ++ js "," ++ newline gap (S level) ++ each l'
            end) items
      ++ newline gap level ++ js "]"
  | JObj [] => js "{}"
  | JObj fields =>
      js "{" ++ newline gap (S level)
      ++ (fix each (l : list (jsstring * json)) : jsstring :=
            match l with
            | [] => []
            | [(k, x)] => stringifyString k ++ colon gap ++ stringifyAt gap (S level) x
            | (k, x) :: l' =>
                stringifyString k ++ colon gap ++ stringifyAt gap (S level) x
                ++ js "," ++ newline gap (S level) ++ each l'
            end) fields
      ++ newline gap level ++ js "}"
  end.

Definition stringify (v : json) (gap : nat) : jsstring := stringifyAt gap 0 v.

Definition isSpace (c : N) : bool :=
  ((c =? 32) || (c =? 10) || (c =? 13) || (c =? 9))%N.

Fixpoint skipSpace (s : jsstring) : jsstring :=
  match s with
  | [] => []
  | c :: s' => if isSpace c then skipSpace s' else s
  end.

Definition isDigit (c : N) : bool := ((48 <=? c) && (c <=? 57))%N.

(** Leading digits of [s]: their value, their number and the rest. *)
Fixpoint parseDigits (s : jsstring) (acc : Z) (count : nat) : Z * nat * jsstring :=
  match s with
  | c :: s' =>
      if isDigit c then parseDigits s' (acc * 10 + (Z.of_N c - 48))%Z (S count)
      else (acc, count, s)
  | [] => (acc, count, s)
  end.

Definition parseNumber (s : jsstring) : option (json * jsstring) :=
  let '(negative, s) :=
    match s with
    | c :: s' => if (c =? 45)%N then (true, s') else (false, s)
    | [] => (false, s)
    end in
  let '(whole, count, s) := parseDigits s 0%Z 0 in
  match count with
  | O => None
  | S _ =>
      let '(frac, places, s) :=
        match s with
        | c :: s' => if (c =? 46)%N then parseDigits s' 0%Z 0 else (0%Z, 0, s)
        | [] => (0%Z, 0, s)
        end in
      let scale := (10 ^ Z.of_nat places)%Z in
      let n := (whole * scale + frac)%Z in
      let n := if negative then (- n)%Z else n in
      Some (JNum (Qred (Qmake n (Z.to_pos scale))), s)
  end.

Definition hexValue (c : N) : option N :=
  if isDigit c then Some (c - 48)%N
  else if ((97 <=? c) && (c <=? 102))%N then Some (c - 87)%N
  else if ((65 <=? c) && (c <=? 70))%N then Some (c - 55)%N
  else None.

(** The code units of a string up to the closing quote. *)
Fixpoint parseStringBody (fuel : nat) (s acc : jsstring) : option (jsstring * jsstring) :=
  match fuel with
  | O => None
  | S fuel' =>
      match s with
      | [] => None
      | c :: s' =>
          if (c =? 34)%N then Some (rev acc, s')
          else if (c =? 92)%N then
            match s' with
            | e :: s'' =>
                if (e =? 117)%N then
                  match s'' with
                  | a :: b :: c' :: d :: s3 =>
                      a ← hexValue a; b ← hexValue b; c' ← hexValue c'; d ← hexValue d;
                      parseStringBody fuel' s3 ((a * 4096 + b * 256 + c' * 16 + d)%N :: acc)
                  | _ => None
                  end
                else
                  let unit :=
                    if (e =? 98)%N then Some 8%N
                    else if (e =? 116)%N then Some 9%N
                    else if (e =? 110)%N then Some 10%N
                    else if (e =? 102)%N then Some 12%N
                    else if (e =? 114)%N then Some 13%N
                    else if ((e =? 34) || (e =? 92) || (e =? 47))%N then Some e
                    else None in
                  u ← unit; parseStringBody fuel' s'' (u :: acc)
            | [] => None
            end
          else parseStringBody fuel' s' (c :: acc)
      end
  end.

Fixpoint parseValue (fuel : nat) (s : jsstring) : option (json * jsstring) :=
  match fuel with
  | O => None
  | S fuel' =>
      let s := skipSpace s in
      if isPrefix (js "null") s then Some (JNull, skipn 4 s)
      else if isPrefix (js "true") s then Some (JBool true, skipn 4 s)
      else if isPrefix (js "false") s then Some (JBool false, skipn 5 s)
      else
        match s with
        | [] => None
        | c :: rest =>
            if (c =? 34)%N then
              '(str, rest) ← parseStringBody (S (length rest)) rest [];
              Some (JStr str, rest)
            else if (c =? 91)%N then
              match skipSpace rest with
              | c' :: rest' =>
                  if (c' =? 93)%N then Some (JArr [], rest')
                  else
                    (fix items (n : nat) (s : jsstring) (acc : list json)
                       : option (json * jsstring) :=
                       match n with
                       | O => None
                       | S n' =>
                           '(v, s) ← parseValue fuel' s;
                           match skipSpace s with
                           | d :: s' =>
                               if (d =? 44)%N then items n' s' (v :: acc)
                               else if (d =? 93)%N then Some (JArr (rev (v :: acc)), s')
                               else None
                           | [] => None
                           end
                       end) fuel' rest []
              | [] => None
              end
            else if (c =? 123)%N then
              match skipSpace rest with
              | c' :: rest' =>
                  if (c' =? 125)%N then Some (JObj [], rest')
                  else
                    (fix members (n : nat) (s : jsstring) (acc : list (jsstring * json))
                       : option (json * jsstring) :=
                       match n with
                       | O => None
                       | S n' =>
                           match skipSpace s with
                           | q :: s =>
                               if (q =? 34)%N then
                                 '(k, s) ← parseStringBody (S (length s)) s [];
                                 match skipSpace s with
                                 | e :: s =>
                                     if (e =? 58)%N then
                                       '(v, s) ← parseValue fuel' s;
                                       match skipSpace s with
                                       | d :: s' =>
                                           if (d =? 44)%N then members n' s' ((k, v) :: acc)
                                           else if (d =? 125)%N
                                                then Some (JObj (rev ((k, v) :: acc)), s')
                                           else None
                                       | [] => None
                                       end
                                     else None
                                 | [] => None
                                 end
                               else None
                           | [] => None
                           end
                       end) fuel' rest []
              | [] => None
              end
            else parseNumber s
        end
  end.

(** The whole text must be one value. *)
Definition parse (text : jsstring) : option json :=
  '(v, rest) ← parseValue (S (length text)) text;
  match skipSpace rest with
  | [] => Some v
  | _ :: _ => None
  end.
End SampleJSON.

(* ===================================================================== *)
(** * Vocabulary of the statements *)
(* ===================================================================== *)

(** How often [cc] is listed in [cats], as a number. *)
Definition timesListed (cc : Category) (cats : list Category) : Q :=
  inject_Z (Z.of_nat (count_occ Category_eq_dec cats cc)).

(** Every term of the lexicon has at least one code unit. *)
Definition termsNonEmpty (lexicon : Lexicon) : bool :=
  forallb (fun cat =>
    forallb (fun lex => negb (bool_decide (Lexeme.term lex = []))) (pget lexicon cat))
    catsOrder.

(** No weight of the lexicon is negative. *)
Definition weightsNonNegative (lexicon : Lexicon) : bool :=
  forallb (fun cat =>
    forallb (fun lex => Qle_bool 0 (default 1%Q (Lexeme.weight lex))) (pget lexicon cat))
    catsOrder.

(** A lexicon with the single lexeme [lex], filed under [cat]. *)
Definition singletonLexicon (cat : Category) (lex : Lexeme.t) : Lexicon :=
  pset (pconst []) cat [lex].

Definition rawNonNegative (raw : PerCategory Q) : Prop :=
  forall c, (0 <= pget raw c)%Q.

(** [l] without its first [k] items that are not pinned (without all of
    them when there are fewer). *)
Fixpoint dropOldestUnpinned (k : nat) (l : list HistItem.t) : list HistItem.t :=
  match k, l with
  | O, _ => l
  | S _, [] => []
  | S k', x :: l' =>
      if isPinned x then x :: dropOldestUnpinned k l' else dropOldestUnpinned k' l'
  end.

Definition unpinnedCount (l : list HistItem.t) : nat :=
  length (List.filter (fun it => negb (isPinned it)) l).

(** The items of the dedup window of version 1.3.0: the last ten. *)
Definition recentWindow (existing : list HistItem.t) : list HistItem.t :=
  skipn (length existing - 10) existing.

Definition sameContent (h : jsstring) (it : HistItem.t) : bool :=
  jsstring_eqb (hashBase36 (HistItem.full it)) h.

(** A history item that carries nothing but a text and a pin flag. *)
Definition plainItem (full : jsstring) (pinned : option bool) : HistItem.t :=
  {| HistItem.id := full; HistItem.ts := []; HistItem.snip := full;
     HistItem.full := full; HistItem.norm := []; HistItem.lead := [];
     HistItem.top := pconst []; HistItem.ver := []; HistItem.lex := [];
     HistItem.pinned := pinned |}.

(** What holds of the value [r] handed back by [appendWithLimit]: it is
    the given array, or a new array that is a subsequence of the history
    followed by the draft.  The draft ends the new array if it is pinned
    or if the unpinned older items cover the overflow; otherwise the
    eviction has removed the draft with every unpinned item. *)
Definition keepsOrder (existing : list HistItem.t) (draft : HistItem.t) (maxN : nat)
    (r : Appended) : Prop :=
  r = SameArray
  \/ exists next,
       r = NewArray next
       /\ sublist next (existing ++ [draft])
       /\ List.filter isPinned next = List.filter isPinned (existing ++ [draft])
       /\ (isPinned draft = true \/ length existing + 1 - maxN <= unpinnedCount existing ->
           exists kept, sublist kept existing /\ next = kept ++ [draft])
       /\ (isPinned draft = false -> unpinnedCount existing < length existing + 1 - maxN ->
           next = List.filter isPinned existing).

Definition hasId (id : jsstring) (it : HistItem.t) : bool :=
  jsstring_eqb (HistItem.id it) id.

(** A state holding [history], already saved, with nothing else set. *)
Definition stateOf (history : list HistItem.t) : AppState :=
  {| text := []; lexicon := pconst []; relationBoost := true;
     history := history; lastSavedHash := None; historyHashSet := ∅;
     savedHistory := Some history; toast := None |}.

(** A host for examples: a fixed clock and a constant lexicon text. *)
Definition sampleHost : Host :=
  mkHost (js "lx2k9a") (js "2025-01-01T00:00:00.000Z") (fun _ => js "{}").

(** "とても会いたい。好き!" *)
Definition sampleText : jsstring :=
  [0x3068; 0x3066; 0x3082; 0x4F1A; 0x3044; 0x305F; 0x3044; 0x3002; 0x597D; 0x304D; 0x21]%N.

(** The item committed for [sampleText], followed by a pinned item. *)
Definition sampleHistory : list HistItem.t :=
  match analyze 20 sampleText DEFAULT_LEXICON true with
  | Some r =>
      [ makeHistItem sampleHost Guarded.APP_VERSION sampleText r
          (localLeaders (AnalysisResult.normalized r)) DEFAULT_LEXICON;
        plainItem (js "pinned \ note") (Some true) ]
  | None => []
  end.

(* ===================================================================== *)
(** * Properties: strings *)
(* ===================================================================== *)

Example trim_example :
  trim [0x20; 0x3000; 0x597D; 0x20; 0x304D; 0x0A]%N = [0x597D; 0x20; 0x304D]%N.
Proof. reflexivity. Qed.

Example hash_example : hashBase36 (js "hello") = js "1n1e4y".
Proof. vm_compute. reflexivity. Qed.

Lemma trimStart_blank (s : jsstring) : isBlank s = true -> trimStart s = [].
Proof.
  induction s as [|c s IH]; simpl; [reflexivity|].
  intros H. apply andb_true_iff in H as [Hc Hs]. rewrite Hc. auto.
Qed.

Lemma trim_blank (text : jsstring) : isBlank text = true -> trim text = [].
Proof.
  intros H. unfold trim, trimEnd. rewrite (trimStart_blank _ H). reflexivity.
Qed.

Lemma trimStart_nil_blank (s : jsstring) : trimStart s = [] -> isBlank s = true.
Proof.
  induction s as [|c s IH]; simpl; [reflexivity|].
  destruct (isWhiteSpace c); [auto | discriminate].
Qed.

Lemma isBlank_rev (s : jsstring) : isBlank (rev s) = isBlank s.
Proof.
  unfold isBlank. induction s as [|c s IH]; simpl; [reflexivity|].
  rewrite forallb_app, IH. simpl. rewrite andb_true_r. apply andb_comm.
Qed.

Lemma trim_nil_blank (text : jsstring) : trim text = [] -> isBlank text = true.
Proof.
  unfold trim, trimEnd. intros H.
  assert (Hr : trimStart (rev (trimStart text)) = []).
  { destruct (trimStart (rev (trimStart text))) as [|c l]; [reflexivity|].
    simpl in H. destruct (rev l); discriminate. }
  apply trimStart_nil_blank in Hr. rewrite isBlank_rev in Hr.
  clear H. induction text as [|c s IH]; simpl in *; [reflexivity|].
  destruct (isWhiteSpace c) eqn:Hc; simpl; [auto|].
  simpl in Hr. rewrite Hc in Hr. discriminate.
Qed.

(* ===================================================================== *)
(** * Properties: blank input *)
(* ===================================================================== *)

(** C7. Blank or whitespace-only text: [analyze] returns, for every
    lexicon and without running a single search loop (any [fuel], even 0,
    is enough), raw and normalized scores that are 0 in all five
    categories and a details map without entries; the leader set computed
    from that text is empty. *)
Theorem analyze_blank (fuel : nat) (text : jsstring) (lexicon : Lexicon)
    (relationBoost : bool) :
  isBlank text = true ->
  exists r,
    analyze fuel text lexicon relationBoost = Some r
    /\ (forall c, pget (AnalysisResult.raw r) c = 0%Q)
    /\ (forall c, pget (AnalysisResult.normalized r) c = 0%Q)
    /\ (forall c, pget (AnalysisResult.details r) c = None)
    /\ leaders text r = [].
Proof.
  intros Hb. apply trim_blank in Hb.
  unfold analyze, leaders. rewrite Hb.
  eexists. split; [reflexivity|].
  repeat split; intros []; reflexivity.
Qed.

Lemma analyze_blank_witness :
  exists r,
    analyze 0 [0x20; 0x3000; 0x0A]%N DEFAULT_LEXICON true = Some r
    /\ (forall c, pget (AnalysisResult.raw r) c = 0%Q)
    /\ (forall c, pget (AnalysisResult.normalized r) c = 0%Q)
    /\ (forall c, pget (AnalysisResult.details r) c = None)
    /\ leaders [0x20; 0x3000; 0x0A]%N r = [].
Proof. apply (analyze_blank 0 [0x20; 0x3000; 0x0A]%N DEFAULT_LEXICON true). reflexivity. Defined.

(** The leader set is empty for blank text whatever result it is paired
    with, and conversely a non-blank text is not short-circuited. *)
Lemma leaders_blank (text : jsstring) (r : AnalysisResult.t) :
  isBlank text = true -> leaders text r = [].
Proof. intros Hb. unfold leaders. rewrite (trim_blank _ Hb). reflexivity. Qed.

(* ===================================================================== *)
(** * Properties: per-category records and ledgers *)
(* ===================================================================== *)

Lemma pget_pset_eq {A} (r : PerCategory A) (c : Category) (v : A) :
  pget (pset r c v) c = v.
Proof. destruct c; reflexivity. Qed.

Lemma pget_pset_ne {A} (r : PerCategory A) (c c' : Category) (v : A) :
  c <> c' -> pget (pset r c v) c' = pget r c'.
Proof. destruct c, c'; intros H; try reflexivity; congruence. Qed.

Lemma pget_pmap {A B} (f : A -> B) (r : PerCategory A) (c : Category) :
  pget (pmap f r) c = f (pget r c).
Proof. destruct c; reflexivity. Qed.

Lemma pget_pconst {A} (v : A) (c : Category) : pget (pconst v) c = v.
Proof. destruct c; reflexivity. Qed.

Lemma jsstring_eqb_eq (a b : jsstring) : jsstring_eqb a b = true <-> a = b.
Proof. unfold jsstring_eqb. apply bool_decide_eq_true. Qed.

Lemma jsstring_eqb_refl (a : jsstring) : jsstring_eqb a a = true.
Proof. apply jsstring_eqb_eq. reflexivity. Qed.

Lemma jsstring_eqb_neq (a b : jsstring) : jsstring_eqb a b = false <-> a <> b.
Proof. unfold jsstring_eqb. apply bool_decide_eq_false. Qed.

Lemma ledgerGet_set_eq (m : Ledger) (k : jsstring) (v : Q) :
  ledgerGet (ledgerSet m k v) k = Some v.
Proof.
  induction m as [|[k' v'] m IH]; simpl.
  - rewrite jsstring_eqb_refl. reflexivity.
  - destruct (jsstring_eqb k' k) eqn:E; simpl; rewrite E; auto.
Qed.

Lemma ledgerGet_set_ne (m : Ledger) (k k' : jsstring) (v : Q) :
  k <> k' -> ledgerGet (ledgerSet m k v) k' = ledgerGet m k'.
Proof.
  intros Hne. induction m as [|[k0 v0] m IH]; simpl.
  - apply jsstring_eqb_neq in Hne. rewrite Hne. reflexivity.
  - destruct (jsstring_eqb k0 k) eqn:E; simpl.
    + apply jsstring_eqb_eq in E. subst k0.
      apply jsstring_eqb_neq in Hne. rewrite Hne. reflexivity.
    + rewrite IH. reflexivity.
Qed.

(* ===================================================================== *)
(** * Properties: contribution of one occurrence *)
(* ===================================================================== *)

Lemma timesListed_nil (cc : Category) : timesListed cc [] = 0%Q.
Proof. reflexivity. Qed.

Lemma timesListed_cons_eq (cc : Category) (cats : list Category) :
  (timesListed cc (cc :: cats) == timesListed cc cats + 1)%Q.
Proof.
  unfold timesListed. simpl. destruct (Category_eq_dec cc cc); [|congruence].
  rewrite Nat2Z.inj_succ. unfold Z.succ. rewrite inject_Z_plus. reflexivity.
Qed.

Lemma timesListed_cons_ne (c cc : Category) (cats : list Category) :
  c <> cc -> timesListed cc (c :: cats) = timesListed cc cats.
Proof.
  intros H. unfold timesListed. simpl. destruct (Category_eq_dec c cc); [congruence|reflexivity].
Qed.

Lemma timesListed_nonneg (cc : Category) (cats : list Category) :
  (0 <= timesListed cc cats)%Q.
Proof.
  unfold timesListed. change 0%Q with (inject_Z 0). rewrite <- Zle_Qle. lia.
Qed.

Lemma fold_addContribution_raw (term : jsstring) (delta : Q) (cats : list Category)
    (st : Work) (cc : Category) :
  (pget (w_raw (fold_left (addContribution term delta) cats st)) cc
   == pget (w_raw st) cc + timesListed cc cats * delta)%Q.
Proof.
  revert st. induction cats as [|c cats IH]; intros st; simpl.
  - rewrite timesListed_nil. ring.
  - rewrite IH. simpl. destruct (decide (c = cc)) as [->|Hne].
    + rewrite pget_pset_eq, timesListed_cons_eq. ring.
    + rewrite pget_pset_ne by exact Hne. rewrite timesListed_cons_ne by exact Hne. ring.
Qed.

Lemma fold_addContribution_ledger (term : jsstring) (delta : Q) (cats : list Category)
    (st : Work) (cc : Category) :
  (ledgerGetOr0 (pget (w_details (fold_left (addContribution term delta) cats st)) cc) term
   == ledgerGetOr0 (pget (w_details st) cc) term + timesListed cc cats * delta)%Q.
Proof.
  revert st. induction cats as [|c cats IH]; intros st; simpl.
  - rewrite timesListed_nil. ring.
  - rewrite IH. simpl. destruct (decide (c = cc)) as [->|Hne].
    + rewrite pget_pset_eq, timesListed_cons_eq.
      unfold ledgerGetOr0 at 1. rewrite ledgerGet_set_eq. ring.
    + rewrite pget_pset_ne by exact Hne. rewrite timesListed_cons_ne by exact Hne. ring.
Qed.

(** A category that is not listed is left exactly as it was. *)
Lemma fold_addContribution_untouched (term : jsstring) (delta : Q) (cats : list Category)
    (st : Work) (cc : Category) :
  ~ In cc cats ->
  pget (w_raw (fold_left (addContribution term delta) cats st)) cc = pget (w_raw st) cc
  /\ pget (w_details (fold_left (addContribution term delta) cats st)) cc
     = pget (w_details st) cc.
Proof.
  revert st. induction cats as [|c cats IH]; intros st Hn; simpl; [auto|].
  assert (c <> cc) by (intros ->; apply Hn; left; reflexivity).
  destruct (IH (addContribution term delta st c)) as [H1 H2].
  { intros Hin. apply Hn. right. exact Hin. }
  rewrite H1, H2. simpl. rewrite !pget_pset_ne by assumption. auto.
Qed.

(** Other terms of a ledger keep their entry. *)
Lemma fold_addContribution_other_term (term term' : jsstring) (delta : Q)
    (cats : list Category) (st : Work) (cc : Category) :
  term <> term' ->
  ledgerGet (pget (w_details (fold_left (addContribution term delta) cats st)) cc) term'
  = ledgerGet (pget (w_details st) cc) term'.
Proof.
  intros Hne. revert st. induction cats as [|c cats IH]; intros st; simpl; [reflexivity|].
  rewrite IH. simpl. destruct (decide (c = cc)) as [->|Hc].
  - rewrite pget_pset_eq. apply ledgerGet_set_ne. exact Hne.
  - rewrite pget_pset_ne by exact Hc. reflexivity.
Qed.

Lemma slice_left_window (t : jsstring) (idx : nat) :
  leftWindow t idx = skipn (idx - 8) (firstn idx t).
Proof.
  unfold leftWindow, slice. rewrite Nat.max_0_l.
  rewrite skipn_firstn_comm. reflexivity.
Qed.

Lemma slice_right_window (t term : jsstring) (idx : nat) :
  rightWindow t term idx = firstn 6 (skipn (idx + length term) t).
Proof.
  unfold rightWindow, slice. f_equal. lia.
Qed.


(* ===================================================================== *)
(** * Properties: the search loop finishes *)
(* ===================================================================== *)

Lemma isPrefix_length (p s : jsstring) : isPrefix p s = true -> length p <= length s.
Proof.
  revert s. induction p as [|a p IH]; intros [|b s]; simpl; try lia; try discriminate.
  intros H. apply andb_true_iff in H as [_ H]. apply IH in H. lia.
Qed.

Lemma indexOfAux_bounds (term s : jsstring) (pos idx : nat) :
  indexOfAux term s pos = Some idx ->
  pos <= idx /\ idx + length term <= pos + length s.
Proof.
  revert pos. induction s as [|c s IH]; intros pos; simpl.
  - destruct (isPrefix term []) eqn:E; [|discriminate].
    intros [= <-]. apply isPrefix_length in E. simpl in E. lia.
  - destruct (isPrefix term (c :: s)) eqn:E.
    + intros [= <-]. apply isPrefix_length in E. simpl in E. lia.
    + intros H. apply IH in H. lia.
Qed.

Lemma indexOf_bounds (text term : jsstring) (from idx : nat) :
  indexOf text term from = Some idx ->
  Nat.min from (length text) <= idx /\ idx + length term <= length text.
Proof.
  unfold indexOf. intros H. apply indexOfAux_bounds in H.
  rewrite length_skipn in H. lia.
Qed.

(** With a non-empty term the loop of [countSubstringIndices] ends within
    [length text + 1] iterations. *)
Lemma countSubstringIndicesLoop_finishes (fuel : nat) (text term : jsstring)
    (from : nat) (indices : list nat) :
  term <> [] -> length text - from < fuel ->
  exists idxs, countSubstringIndicesLoop fuel text term from indices = Some idxs.
Proof.
  intros Hne. revert from indices.
  induction fuel as [|fuel IH]; intros from indices Hf; [lia|].
  simpl. destruct (indexOf text term from) as [idx|] eqn:E; [|eauto].
  apply indexOf_bounds in E.
  assert (0 < length term) by (destruct term; [congruence|simpl; lia]).
  apply IH. lia.
Qed.

Lemma countSubstringIndices_finishes (fuel : nat) (text term : jsstring) :
  term <> [] -> length text < fuel ->
  exists idxs, countSubstringIndices fuel text term = Some idxs.
Proof.
  intros. apply countSubstringIndicesLoop_finishes; [assumption|lia].
Qed.

(** With the empty term, [indexOf] always succeeds, and the loop never
    ends: no amount of fuel is enough. *)
Lemma countSubstringIndicesLoop_empty_term (fuel : nat) (text : jsstring)
    (from : nat) (indices : list nat) :
  countSubstringIndicesLoop fuel text [] from indices = None.
Proof.
  revert from indices. induction fuel as [|fuel IH]; intros from indices; [reflexivity|].
  simpl. unfold indexOf.
  destruct (skipn (Nat.min from (length text)) text); simpl; apply IH.
Qed.

Lemma forEachM_inv {A S : Type} (P : S -> Prop) (body : S -> A -> option S)
    (l : list A) (s s' : S) :
  (forall s x s', In x l -> P s -> body s x = Some s' -> P s') ->
  P s -> forEachM body l s = Some s' -> P s'.
Proof.
  revert s. induction l as [|x l IH]; intros s Hstep Hs; simpl.
  - intros [= <-]. exact Hs.
  - destruct (body s x) as [s1|] eqn:E; simpl; [|discriminate].
    apply IH.
    + intros s2 y s3 Hy. apply Hstep. right. exact Hy.
    + apply (Hstep s x s1); [left; reflexivity|exact Hs|exact E].
Qed.

Lemma forEachM_finishes {A S : Type} (body : S -> A -> option S) (l : list A) (s : S) :
  (forall s x, In x l -> exists s', body s x = Some s') ->
  exists s', forEachM body l s = Some s'.
Proof.
  revert s. induction l as [|x l IH]; intros s Hb; simpl; [eauto|].
  destruct (Hb s x) as [s1 E]; [left; reflexivity|]. rewrite E. simpl.
  apply IH. intros s2 y Hy. apply Hb. right. exact Hy.
Qed.

Lemma termsNonEmpty_spec (lexicon : Lexicon) (cat : Category) (lex : Lexeme.t) :
  termsNonEmpty lexicon = true -> In lex (pget lexicon cat) -> Lexeme.term lex <> [].
Proof.
  unfold termsNonEmpty. rewrite forallb_forall. intros H Hin.
  assert (Hc : In cat catsOrder) by (destruct cat; simpl; tauto).
  specialize (H cat Hc). rewrite forallb_forall in H. specialize (H lex Hin).
  apply negb_true_iff, bool_decide_eq_false in H. exact H.
Qed.

Lemma weightsNonNegative_spec (lexicon : Lexicon) (cat : Category) (lex : Lexeme.t) :
  weightsNonNegative lexicon = true -> In lex (pget lexicon cat) ->
  (0 <= default 1 (Lexeme.weight lex))%Q.
Proof.
  unfold weightsNonNegative. rewrite forallb_forall. intros H Hin.
  assert (Hc : In cat catsOrder) by (destruct cat; simpl; tauto).
  specialize (H cat Hc). rewrite forallb_forall in H. specialize (H lex Hin).
  apply Qle_bool_iff in H. exact H.
Qed.

Lemma scoring_finishes (fuel : nat) (t : jsstring) (lexicon : Lexicon) (st : Work) :
  termsNonEmpty lexicon = true -> length t < fuel ->
  exists st', forEachM (scoreCategory fuel t lexicon) catsOrder st = Some st'.
Proof.
  intros Hne Hf. apply forEachM_finishes. intros s cat _.
  unfold scoreCategory. apply forEachM_finishes. intros s1 lex Hin.
  unfold scoreLexeme.
  destruct (countSubstringIndices_finishes fuel t (Lexeme.term lex)) as [idxs E];
    [eapply termsNonEmpty_spec; eassumption|exact Hf|].
  rewrite E. simpl. eauto.
Qed.

(* ===================================================================== *)
(** * Properties: raw scores and normalization *)
(* ===================================================================== *)

Lemma contributionFactor_nonneg (left right : jsstring) :
  (0 <= contributionFactor left right)%Q.
Proof.
  unfold contributionFactor.
  repeat match goal with
         | |- context [windowHas ?l ?w] => destruct (windowHas l w)
         end; apply Qle_bool_iff; reflexivity.
Qed.

Lemma inject_nat_nonneg (n : nat) : (0 <= inject_Z (Z.of_nat n))%Q.
Proof. change 0%Q with (inject_Z 0). rewrite <- Zle_Qle. lia. Qed.

Lemma relationBonus_nonneg (t : jsstring) : (0 <= relationBonus t)%Q.
Proof.
  unfold relationBonus.
  assert (H : forall l acc, (0 <= acc)%Q ->
            (0 <= fold_left (fun bonus w =>
                     bonus + inject_Z (Z.of_nat (matchCount w t)) * 0.6)%Q l acc)%Q).
  { induction l as [|w l IH]; intros acc Hacc; simpl; [exact Hacc|].
    apply IH. pose proof (inject_nat_nonneg (matchCount w t)). nra. }
  apply H. apply Qle_refl.
Qed.

Lemma baseEmojiBoost_nonneg (t : jsstring) (c : Category) : (0 <= baseEmojiBoost t c)%Q.
Proof.
  unfold baseEmojiBoost.
  pose proof (inject_nat_nonneg
    (fold_left (fun c0 e => c0 + matchCount e t) (EMOJI_BOOST c) 0)). nra.
Qed.

Lemma amp_ge_1 (t : jsstring) : (1 <= amp t)%Q.
Proof.
  unfold amp.
  assert (0 <= Qmin 0.5 (inject_Z (Z.of_nat (countExclam t)) * 0.05))%Q.
  { apply Q.min_glb; [apply Qle_bool_iff; reflexivity|].
    pose proof (inject_nat_nonneg (countExclam t)). nra. }
  lra.
Qed.

Lemma lengthNorm_bounds (t : jsstring) : (0.7 <= lengthNorm t /\ lengthNorm t <= 1)%Q.
Proof.
  unfold lengthNorm. split; [apply Q.le_max_l|].
  apply Q.max_lub; [apply Qle_bool_iff; reflexivity|].
  eapply Qle_trans; [apply Q.le_min_l|apply Qle_bool_iff; reflexivity].
Qed.

Lemma applyRelationBoost_raw (t : jsstring) (st : Work) :
  w_raw (applyRelationBoost t st)
  = pset (w_raw st) Affection (pget (w_raw st) Affection + relationBonus t)%Q.
Proof. unfold applyRelationBoost. destruct (Qeq_bool _ _); reflexivity. Qed.

Lemma scoreOccurrence_nonneg (t : jsstring) (cat : Category) (lex : Lexeme.t)
    (st : Work) (idx : nat) :
  (0 <= default 1 (Lexeme.weight lex))%Q ->
  rawNonNegative (w_raw st) -> rawNonNegative (w_raw (scoreOccurrence t cat lex st idx)).
Proof.
  intros Hw Hst c. unfold scoreOccurrence. rewrite fold_addContribution_raw.
  pose proof (Hst c). pose proof (timesListed_nonneg c (targetCategories cat lex)).
  assert (0 <= occurrenceDelta t lex idx)%Q.
  { unfold occurrenceDelta.
    pose proof (contributionFactor_nonneg (leftWindow t idx)
                  (rightWindow t (Lexeme.term lex) idx)). nra. }
  nra.
Qed.

Lemma scoring_nonneg (fuel : nat) (t : jsstring) (lexicon : Lexicon) (st st' : Work) :
  weightsNonNegative lexicon = true ->
  rawNonNegative (w_raw st) ->
  forEachM (scoreCategory fuel t lexicon) catsOrder st = Some st' ->
  rawNonNegative (w_raw st').
Proof.
  intros Hw. apply (forEachM_inv (fun s => rawNonNegative (w_raw s))).
  intros s cat s1 _. unfold scoreCategory.
  apply (forEachM_inv (fun s => rawNonNegative (w_raw s))).
  intros s2 lex s3 Hin Hs2. unfold scoreLexeme.
  destruct (countSubstringIndices fuel t (Lexeme.term lex)) as [idxs|]; simpl; [|discriminate].
  intros [= <-]. clear -Hw Hin Hs2. revert s2 Hs2.
  induction idxs as [|idx idxs IH]; intros s2 Hs2; simpl; [exact Hs2|].
  apply IH. apply scoreOccurrence_nonneg; [|exact Hs2].
  eapply weightsNonNegative_spec; eassumption.
Qed.

Lemma finishRaw_get (t : jsstring) (raw : PerCategory Q) (c : Category) :
  pget (finishRaw t raw) c
  = ((pget raw c + baseEmojiBoost t c) * (amp t * lengthNorm t))%Q.
Proof. destruct c; reflexivity. Qed.

Lemma finishRaw_nonneg (t : jsstring) (raw : PerCategory Q) :
  rawNonNegative raw -> rawNonNegative (finishRaw t raw).
Proof.
  intros H c. rewrite finishRaw_get.
  pose proof (H c). pose proof (baseEmojiBoost_nonneg t c).
  pose proof (amp_ge_1 t). destruct (lengthNorm_bounds t).
  assert (0 <= amp t * lengthNorm t)%Q by nra. nra.
Qed.

Lemma normalize_get (raw : PerCategory Q) (c : Category) :
  pget (normalize raw) c = (pget raw c / maxv raw * 100)%Q.
Proof. destruct c; reflexivity. Qed.

Lemma maxv_unfold (raw : PerCategory Q) :
  maxv raw = Qmax (Qmax (Qmax (Qmax (Qmax 0.0001 (pget raw Affection)) (pget raw Longing))
                           (pget raw Sadness)) (pget raw Amae)) (pget raw Desire).
Proof. reflexivity. Qed.

Lemma maxv_ge_floor (raw : PerCategory Q) : (0.0001 <= maxv raw)%Q.
Proof.
  rewrite maxv_unfold.
  repeat (eapply Qle_trans; [|apply Q.le_max_l]). apply Qle_refl.
Qed.

Lemma maxv_ge (raw : PerCategory Q) (c : Category) : (pget raw c <= maxv raw)%Q.
Proof.
  rewrite maxv_unfold. destruct c.
  - do 4 (eapply Qle_trans; [|apply Q.le_max_l]). apply Q.le_max_r.
  - do 3 (eapply Qle_trans; [|apply Q.le_max_l]). apply Q.le_max_r.
  - do 2 (eapply Qle_trans; [|apply Q.le_max_l]). apply Q.le_max_r.
  - do 1 (eapply Qle_trans; [|apply Q.le_max_l]). apply Q.le_max_r.
  - apply Q.le_max_r.
Qed.

Lemma Qmax_or (x y : Q) : (Qmax x y == x)%Q \/ (Qmax x y == y)%Q.
Proof. destruct (Q.max_spec x y) as [[_ H]|[_ H]]; auto. Qed.

Lemma fold_Qmax_attained (l : list Q) (a : Q) :
  (fold_left Qmax l a == a)%Q \/ exists x, In x l /\ (fold_left Qmax l a == x)%Q.
Proof.
  revert a. induction l as [|y l IH]; intros a; simpl; [left; reflexivity|].
  destruct (IH (Qmax a y)) as [E|[x [Hx E]]].
  - destruct (Qmax_or a y) as [E'|E'].
    + left. rewrite E. exact E'.
    + right. exists y. split; [left; reflexivity|]. rewrite E. exact E'.
  - right. exists x. split; [right; exact Hx|exact E].
Qed.

Lemma maxv_attained (raw : PerCategory Q) :
  (maxv raw == 0.0001)%Q \/ exists c, (maxv raw == pget raw c)%Q.
Proof.
  unfold maxv.
  destruct (fold_Qmax_attained (List.map (pget raw) catsOrder) 0.0001) as [E|[x [Hx E]]].
  - left. exact E.
  - right. apply in_map_iff in Hx as [c [<- _]]. exists c. exact E.
Qed.

Lemma maxv_pos (raw : PerCategory Q) : (0 < maxv raw)%Q.
Proof.
  eapply Qlt_le_trans; [|apply maxv_ge_floor]. reflexivity.
Qed.

Lemma normalize_le_100 (raw : PerCategory Q) (c : Category) :
  (pget (normalize raw) c <= 100)%Q.
Proof.
  rewrite normalize_get. pose proof (maxv_pos raw) as Hp. pose proof (maxv_ge raw c) as Hc.
  assert (pget raw c / maxv raw <= 1)%Q.
  { apply Qle_shift_div_r; [exact Hp|]. lra. }
  lra.
Qed.

Lemma normalize_nonneg (raw : PerCategory Q) (c : Category) :
  (0 <= pget raw c)%Q -> (0 <= pget (normalize raw) c)%Q.
Proof.
  intros H. rewrite normalize_get. pose proof (maxv_pos raw) as Hp.
  assert (0 <= pget raw c / maxv raw)%Q.
  { apply Qle_shift_div_l; [exact Hp|]. lra. }
  lra.
Qed.

Lemma normalize_zero (raw : PerCategory Q) (c : Category) :
  (pget raw c == 0)%Q -> (pget (normalize raw) c == 0)%Q.
Proof.
  intros H. rewrite normalize_get, H. unfold Qdiv. ring.
Qed.

Lemma normalize_at_max (raw : PerCategory Q) (c : Category) :
  (maxv raw == pget raw c)%Q -> (pget (normalize raw) c == 100)%Q.
Proof.
  intros H. rewrite normalize_get, <- H. pose proof (maxv_pos raw) as Hp.
  field. intros E. rewrite E in Hp. apply (Qlt_irrefl 0). exact Hp.
Qed.

Lemma normalize_reaches_100 (raw : PerCategory Q) :
  (exists c, (0.0001 <= pget raw c)%Q) -> exists c, (pget (normalize raw) c == 100)%Q.
Proof.
  intros [c Hc]. destruct (maxv_attained raw) as [E|[c' E]].
  - exists c. apply normalize_at_max. pose proof (maxv_ge raw c). lra.
  - exists c'. apply normalize_at_max. exact E.
Qed.

(** Below the floor every normalized score is the raw score times one
    million, hence below 100. *)
Lemma normalize_below_floor (raw : PerCategory Q) :
  (forall c, (pget raw c <= 0.0001)%Q) ->
  forall c, (pget (normalize raw) c == pget raw c * 1000000)%Q.
Proof.
  intros H c. rewrite normalize_get.
  assert (E : (maxv raw == 0.0001)%Q).
  { destruct (maxv_attained raw) as [E|[c' E]]; [exact E|].
    pose proof (maxv_ge_floor raw). pose proof (H c'). lra. }
  rewrite E. field.
Qed.




(** A negative weight, which the lexicon type admits, takes a normalized
    score below 0. *)
Lemma normalized_negative_with_negative_weight :
  exists r,
    analyze 2 (js "a") (singletonLexicon Affection (lexeme (js "a") (Some (-1)%Q) None))
      false = Some r
    /\ (pget (AnalysisResult.normalized r) Affection == -1000000)%Q.
Proof. eexists. split; vm_compute; reflexivity. Qed.

Lemma scoreLexeme_empty_term (fuel : nat) (t : jsstring) (cat : Category)
    (st : Work) (lex : Lexeme.t) :
  Lexeme.term lex = [] -> scoreLexeme fuel t cat st lex = None.
Proof.
  intros E. unfold scoreLexeme, countSubstringIndices. rewrite E.
  rewrite countSubstringIndicesLoop_empty_term. reflexivity.
Qed.

(** An empty term keeps [analyze] from returning on non-blank text. *)
Lemma analyze_empty_term_never_returns (fuel : nat) :
  analyze fuel (js "a") (singletonLexicon Affection (lexeme [] None None)) false = None.
Proof.
  unfold analyze.
  replace (trim (js "a")) with [97%N] by (vm_compute; reflexivity).
  cbn [forEachM catsOrder scoreCategory pget singletonLexicon pset pconst affection].
  rewrite scoreLexeme_empty_term by reflexivity. reflexivity.
Qed.

(** The failing input of C3: a lexeme whose [categories] is the empty
    array.  Its match is routed to no category at all: every raw score
    stays 0 and no ledger receives an entry, although the same lexeme
    without the field scores 2 for its owning category. *)
Theorem empty_categories_contribute_nowhere :
  let suki := [0x597D; 0x304D]%N in
  (exists r,
     analyze 3 suki (singletonLexicon Affection (lexeme suki (Some 2%Q) (Some []))) false
     = Some r
     /\ (forall c, (pget (AnalysisResult.raw r) c == 0)%Q
                   /\ pget (AnalysisResult.details r) c = Some []))
  /\ (exists r,
        analyze 3 suki (singletonLexicon Affection (lexeme suki (Some 2%Q) None)) false
        = Some r
        /\ (pget (AnalysisResult.raw r) Affection == 2)%Q
        /\ pget (AnalysisResult.details r) Affection = Some [(suki, (2 * 1)%Q)]).
Proof.
  split.
  - eexists. split; [vm_compute; reflexivity|].
    intros []; split; reflexivity.
  - eexists. split; [vm_compute; reflexivity|].
    split; reflexivity.
Qed.

(** In general an occurrence of a lexeme with an empty [categories] array
    changes nothing, whereas an absent field routes to the owning
    category. *)
Lemma scoreOccurrence_empty_categories (t : jsstring) (cat : Category) (lex : Lexeme.t)
    (st : Work) (idx : nat) :
  Lexeme.categories lex = Some [] -> scoreOccurrence t cat lex st idx = st.
Proof.
  intros E. unfold scoreOccurrence, targetCategories. rewrite E. reflexivity.
Qed.

Lemma targetCategories_unset (cat : Category) (lex : Lexeme.t) :
  Lexeme.categories lex = None -> targetCategories cat lex = [cat].
Proof. intros E. unfold targetCategories. rewrite E. reflexivity. Qed.

(* ===================================================================== *)
(** * Properties: eviction *)
(* ===================================================================== *)

Lemma findIndex_None_all_pinned (l : list HistItem.t) :
  findIndex (fun it => negb (isPinned it)) l = None <-> forallb isPinned l = true.
Proof.
  induction l as [|x l IH]; simpl; [tauto|].
  destruct (isPinned x); simpl.
  - rewrite <- IH. destruct (findIndex _ l); simpl; split; congruence.
  - split; discriminate.
Qed.

Lemma findIndex_Some_first (l : list HistItem.t) (idx : nat) :
  findIndex (fun it => negb (isPinned it)) l = Some idx ->
  exists pre x post,
    l = pre ++ x :: post /\ length pre = idx
    /\ forallb isPinned pre = true /\ isPinned x = false.
Proof.
  revert idx. induction l as [|y l IH]; intros idx; simpl; [discriminate|].
  destruct (isPinned y) eqn:Hy; simpl.
  - destruct (findIndex _ l) as [j|]; simpl; [|discriminate].
    intros [= <-]. destruct (IH j eq_refl) as (pre & x & post & -> & <- & Hp & Hx).
    exists (y :: pre), x, post. simpl. rewrite Hy, Hp. auto.
  - intros [= <-]. exists [], y, l. auto.
Qed.

Lemma dropOldestUnpinned_0 (l : list HistItem.t) : dropOldestUnpinned 0 l = l.
Proof. destruct l; reflexivity. Qed.

Lemma dropOldestUnpinned_all_pinned (k : nat) (l : list HistItem.t) :
  forallb isPinned l = true -> dropOldestUnpinned k l = l.
Proof.
  induction l as [|x l IH]; destruct k; simpl; try reflexivity.
  intros H. apply andb_true_iff in H as [Hx Hl]. rewrite Hx. f_equal. auto.
Qed.

Lemma dropOldestUnpinned_step (k : nat) (l : list HistItem.t) (idx : nat) :
  findIndex (fun it => negb (isPinned it)) l = Some idx ->
  dropOldestUnpinned (S k) l = dropOldestUnpinned k (delete idx l).
Proof.
  revert idx. induction l as [|x l IH]; intros idx; simpl; [discriminate|].
  destruct (isPinned x) eqn:Hx; simpl.
  - destruct (findIndex _ l) as [j|] eqn:Hj; simpl; [|discriminate].
    intros [= <-]. simpl. rewrite (IH j eq_refl). destruct k.
    + rewrite dropOldestUnpinned_0. reflexivity.
    + rewrite Hx. reflexivity.
  - intros [= <-]. reflexivity.
Qed.

(** The loop removes the oldest unpinned items, one for each item above
    the cap, and stops early when none is left. *)
Lemma evictLoop_drops_oldest (maxN : nat) (next : list HistItem.t) :
  evictLoop maxN next = dropOldestUnpinned (length next - maxN) next.
Proof.
  funelim (evictLoop maxN next).
  - match goal with
    | E : (_ <? _) = false |- _ => pose proof (proj1 (Nat.ltb_ge _ _) E) as Hle
    end.
    replace (length next - maxN) with 0 by lia.
    rewrite dropOldestUnpinned_0. reflexivity.
  - match goal with
    | E : (_ <? _) = true |- _ => pose proof (proj1 (Nat.ltb_lt _ _) E) as Hlt
    end.
    match goal with
    | IH : evictLoop _ _ = dropOldestUnpinned _ _ |- _ => rewrite IH
    end.
    pose proof (findIndex_Some_first _ _ Hidx) as (pre & x & post & Hnext & Hlen & _ & _).
    assert (Hi : idx < length next).
    { rewrite Hnext, length_app. simpl. lia. }
    rewrite length_delete by (apply lookup_lt_is_Some; exact Hi).
    replace (length next - maxN) with (S (length next - 1 - maxN)) by lia.
    symmetry. apply dropOldestUnpinned_step. exact Hidx.
  - symmetry. apply dropOldestUnpinned_all_pinned.
    apply findIndex_None_all_pinned.
    match goal with
    | E : findIndex _ _ = None |- _ => exact E
    end.
Qed.

Lemma dropOldestUnpinned_sublist (k : nat) (l : list HistItem.t) :
  sublist (dropOldestUnpinned k l) l.
Proof.
  revert k. induction l as [|x l IH]; intros [|k]; simpl; try reflexivity.
  destruct (isPinned x).
  - apply sublist_skip, IH.
  - apply sublist_cons, IH.
Qed.

Lemma dropOldestUnpinned_pinned (k : nat) (l : list HistItem.t) :
  List.filter isPinned (dropOldestUnpinned k l) = List.filter isPinned l.
Proof.
  revert k. induction l as [|x l IH]; intros [|k]; simpl; try reflexivity.
  destruct (isPinned x) eqn:Hx; simpl; rewrite ?Hx, IH; reflexivity.
Qed.

Lemma dropOldestUnpinned_length (k : nat) (l : list HistItem.t) :
  length (dropOldestUnpinned k l) = length l - Nat.min k (unpinnedCount l).
Proof.
  unfold unpinnedCount. revert k.
  induction l as [|x l IH]; intros [|k]; try reflexivity.
  cbn [dropOldestUnpinned List.filter].
  assert (length (List.filter (fun it => negb (isPinned it)) l) <= length l)
    by apply filter_length_le.
  destruct (isPinned x); cbn [negb length].
  - rewrite (IH (S k)). lia.
  - rewrite (IH k). lia.
Qed.

Lemma dropOldestUnpinned_exhausted (k : nat) (l : list HistItem.t) :
  unpinnedCount l <= k -> dropOldestUnpinned k l = List.filter isPinned l.
Proof.
  unfold unpinnedCount. revert k.
  induction l as [|x l IH]; intros [|k]; simpl; try reflexivity.
  - destruct (isPinned x); simpl; [|lia]. intros H. f_equal.
    rewrite <- (IH 0 H). rewrite dropOldestUnpinned_0. reflexivity.
  - destruct (isPinned x); simpl; intros H.
    + f_equal. apply IH. exact H.
    + apply IH. lia.
Qed.

Lemma filter_isPinned_all (l : list HistItem.t) :
  forallb isPinned (List.filter isPinned l) = true.
Proof.
  induction l as [|x l IH]; simpl; [reflexivity|].
  destruct (isPinned x) eqn:Hx; simpl; rewrite ?Hx; exact IH.
Qed.

Lemma evictLoop_exit (maxN : nat) (next : list HistItem.t) :
  length (evictLoop maxN next) <= maxN \/ forallb isPinned (evictLoop maxN next) = true.
Proof.
  rewrite evictLoop_drops_oldest.
  destruct (le_lt_dec (length next - maxN) (unpinnedCount next)) as [H|H].
  - left. rewrite dropOldestUnpinned_length. lia.
  - right. rewrite dropOldestUnpinned_exhausted by lia. apply filter_isPinned_all.
Qed.

(** The variant with the hash set evicts the same items. *)
Lemma evictLoop_hashset_same_items (maxN : nat) (next : list HistItem.t)
    (hashSet : gset jsstring) :
  fst (HashSetDedup.evictLoop maxN next hashSet) = evictLoop maxN next.
Proof.
  funelim (HashSetDedup.evictLoop maxN next hashSet);
    rewrite evictLoop_drops_oldest;
    try match goal with
        | E : (_ <? _) = true |- _ => pose proof (proj1 (Nat.ltb_lt _ _) E) as Hlt
        | E : (_ <? _) = false |- _ => pose proof (proj1 (Nat.ltb_ge _ _) E) as Hle
        end.
  all: lazymatch goal with
       | IH : fst (HashSetDedup.evictLoop _ _ _) = _,
         Hf : findIndex _ ?n = Some ?i, Hl : ?n !! ?i = Some _ |- _ =>
           rewrite IH, evictLoop_drops_oldest;
           pose proof (lookup_lt_Some _ _ _ Hl) as Hi;
           rewrite length_delete by (apply lookup_lt_is_Some; exact Hi);
           match goal with
           | |- context [length n - ?m] =>
               replace (length n - m) with (S (length n - 1 - m)) by lia
           end;
           symmetry; apply dropOldestUnpinned_step; exact Hf
       | E : ?n !! _ = None, Hf : findIndex _ ?n = Some _ |- _ =>
           exfalso; pose proof (proj1 (lookup_ge_None _ _) E) as Hge;
           pose proof (findIndex_Some_first _ _ Hf)
             as (pre & x & post & Hnext & Hlen & _ & _);
           rewrite Hnext, length_app in *; simpl in *; lia
       | E : findIndex _ _ = None |- _ =>
           simpl; symmetry; apply dropOldestUnpinned_all_pinned;
           apply findIndex_None_all_pinned; exact E
       | Hle : length ?n <= ?m |- _ =>
           replace (length n - m) with 0 by lia;
           rewrite dropOldestUnpinned_0; reflexivity
       end.
Qed.

(** C5. After the draft is appended, the loop of [appendWithLimit] leaves
    a list within the cap alone; above the cap each iteration removes the
    oldest item that is not pinned; when every item is pinned it stops and
    hands the list back although it exceeds the cap.  Altogether the result
    is the list without its oldest unpinned items, one for each item
    above the cap (all of them if there are fewer): every pinned item is
    kept, in place, nothing is reordered, and the loop ends with the list
    within the cap or with pinned items only.  Both variants evict the
    same items. *)
Theorem eviction_removes_oldest_unpinned (maxN : nat) (next : list HistItem.t) :
  let result := evictLoop maxN next in
  (length next <= maxN -> result = next)
  /\ (forall idx,
        maxN < length next ->
        findIndex (fun it => negb (isPinned it)) next = Some idx ->
        (forall j it, j < idx -> next !! j = Some it -> isPinned it = true)
        /\ (exists it, next !! idx = Some it /\ isPinned it = false)
        /\ result = evictLoop maxN (delete idx next))
  /\ (forallb isPinned next = true -> result = next)
  /\ result = dropOldestUnpinned (length next - maxN) next
  /\ List.filter isPinned result = List.filter isPinned next
  /\ sublist result next
  /\ (length result <= maxN \/ forallb isPinned result = true)
  /\ (forall hashSet, fst (HashSetDedup.evictLoop maxN next hashSet) = result).
Proof.
  cbv zeta. rewrite evictLoop_drops_oldest.
  split.
  { intros H. replace (length next - maxN) with 0 by lia. apply dropOldestUnpinned_0. }
  split.
  { intros idx Hlt Hidx.
    pose proof (findIndex_Some_first _ _ Hidx) as (pre & x & post & Hnext & Hlen & Hpre & Hx).
    split; [|split].
    - intros j it Hj Hit. subst next. rewrite lookup_app_l in Hit by lia.
      rewrite forallb_forall in Hpre. apply Hpre.
      apply list_elem_of_In. eapply list_elem_of_lookup_2. exact Hit.
    - exists x. split; [|exact Hx]. subst next idx.
      rewrite lookup_app_r by lia. rewrite Nat.sub_diag. reflexivity.
    - rewrite evictLoop_drops_oldest.
      assert (Hi : idx < length next) by (rewrite Hnext, length_app; simpl; lia).
      rewrite length_delete by (apply lookup_lt_is_Some; exact Hi).
      replace (length next - maxN) with (S (length next - 1 - maxN)) by lia.
      apply dropOldestUnpinned_step. exact Hidx. }
  split; [apply dropOldestUnpinned_all_pinned|].
  split; [reflexivity|].
  split; [apply dropOldestUnpinned_pinned|].
  split; [apply dropOldestUnpinned_sublist|].
  split.
  { rewrite <- evictLoop_drops_oldest. apply evictLoop_exit. }
  intros hashSet. rewrite evictLoop_hashset_same_items. apply evictLoop_drops_oldest.
Qed.

(* ===================================================================== *)
(** * Properties: de-duplication and order *)
(* ===================================================================== *)

Lemma recentWindow_spec (existing : list HistItem.t) :
  exists older,
    existing = older ++ recentWindow existing
    /\ length (recentWindow existing) = Nat.min 10 (length existing).
Proof.
  exists (firstn (length existing - 10) existing). unfold recentWindow. split.
  - symmetry. apply firstn_skipn.
  - rewrite length_skipn. lia.
Qed.

Lemma evictLoop_under_cap (maxN : nat) (existing : list HistItem.t) (draft : HistItem.t) :
  length existing < maxN -> evictLoop maxN (existing ++ [draft]) = existing ++ [draft].
Proof.
  intros H. rewrite evictLoop_drops_oldest, length_app. simpl.
  replace (length existing + 1 - maxN) with 0 by lia. apply dropOldestUnpinned_0.
Qed.

Lemma evictLoop_hashset_under_cap (maxN : nat) (next : list HistItem.t)
    (hashSet : gset jsstring) :
  length next <= maxN -> HashSetDedup.evictLoop maxN next hashSet = (next, hashSet).
Proof.
  intros Hle. funelim (HashSetDedup.evictLoop maxN next hashSet); try reflexivity.
  match goal with
  | E : (_ <? _) = true |- _ => pose proof (proj1 (Nat.ltb_lt _ _) E); lia
  end.
Qed.

Lemma appendWithLimit_dedup_equations (existing : list HistItem.t) (draft : HistItem.t)
    (maxN : nat) (hashSet : gset jsstring) :
  Guarded.appendWithLimit existing draft maxN
  = (if existsb (sameContent (hashBase36 (HistItem.full draft))) (recentWindow existing)
     then SameArray else NewArray (evictLoop maxN (existing ++ [draft])))
  /\ HashSetDedup.appendWithLimit existing draft maxN hashSet
     = (if bool_decide (hashBase36 (HistItem.full draft) ∈ hashSet)
        then (SameArray, hashSet)
        else (NewArray (evictLoop maxN (existing ++ [draft])),
              snd (HashSetDedup.evictLoop maxN (existing ++ [draft])
                     ({[ hashBase36 (HistItem.full draft) ]} ∪ hashSet)))).
Proof.
  split; [reflexivity|].
  unfold HashSetDedup.appendWithLimit.
  destruct (bool_decide _); [reflexivity|].
  rewrite <- (evictLoop_hashset_same_items maxN (existing ++ [draft])
                ({[ hashBase36 (HistItem.full draft) ]} ∪ hashSet)).
  destruct (HashSetDedup.evictLoop _ _ _). reflexivity.
Qed.


(** When the hash set holds exactly the hashes of the history, as it does
    after [loadHistory] and after an import, the window of version 1.0.1
    is the whole history. *)
Lemma hashSet_window_is_history (existing : list HistItem.t) (h : jsstring) :
  h ∈ (list_to_set (List.map (fun it => hashBase36 (HistItem.full it)) existing)
         : gset jsstring)
  <-> exists it, In it existing /\ hashBase36 (HistItem.full it) = h.
Proof.
  rewrite elem_of_list_to_set, list_elem_of_In, in_map_iff.
  split; intros (it & H1 & H2); exists it; auto.
Qed.

Lemma dropOldestUnpinned_app (k : nat) (l l2 : list HistItem.t) :
  dropOldestUnpinned k (l ++ l2)
  = dropOldestUnpinned k l ++ dropOldestUnpinned (k - unpinnedCount l) l2.
Proof.
  unfold unpinnedCount. revert k.
  induction l as [|x l IH]; intros k.
  - simpl. rewrite Nat.sub_0_r. destruct k; reflexivity.
  - destruct k as [|k].
    + simpl. rewrite dropOldestUnpinned_0. reflexivity.
    + cbn [app dropOldestUnpinned List.filter].
      destruct (isPinned x); cbn [negb length].
      * rewrite IH. reflexivity.
      * rewrite IH. reflexivity.
Qed.

Lemma appended_keepsOrder (existing : list HistItem.t) (draft : HistItem.t) (maxN : nat) :
  keepsOrder existing draft maxN (NewArray (evictLoop maxN (existing ++ [draft]))).
Proof.
  right. eexists. split; [reflexivity|].
  rewrite evictLoop_drops_oldest.
  split; [apply dropOldestUnpinned_sublist|].
  split; [apply dropOldestUnpinned_pinned|].
  rewrite length_app. simpl length. rewrite dropOldestUnpinned_app.
  split.
  - intros H. exists (dropOldestUnpinned (length existing + 1 - maxN) existing).
    split; [apply dropOldestUnpinned_sublist|]. f_equal.
    destruct H as [H|H].
    + apply dropOldestUnpinned_all_pinned. simpl. rewrite H. reflexivity.
    + replace (length existing + 1 - maxN - unpinnedCount existing) with 0 by lia.
      reflexivity.
  - intros Hd Hlt.
    rewrite dropOldestUnpinned_exhausted by lia.
    destruct (length existing + 1 - maxN - unpinnedCount existing) as [|j] eqn:E; [lia|].
    simpl. rewrite Hd. destruct j; apply app_nil_r.
Qed.

(** C10 (as amended). [appendWithLimit] never reorders: it hands back
    the given array (duplicate), or a new array that is a subsequence of
    the old history followed by the draft, with every pinned item kept.
    The draft is the last element of the new array when it is pinned or
    when no more items have to go than there are unpinned older items;
    otherwise the loop has evicted the draft together with every unpinned
    older item, and the new array is the pinned part of the old history. *)
Theorem appendWithLimit_keeps_order (existing : list HistItem.t) (draft : HistItem.t)
    (maxN : nat) (hashSet : gset jsstring) :
  keepsOrder existing draft maxN (Guarded.appendWithLimit existing draft maxN)
  /\ keepsOrder existing draft maxN
       (fst (HashSetDedup.appendWithLimit existing draft maxN hashSet))
  /\ sublist (arrayOf existing (Guarded.appendWithLimit existing draft maxN))
       (existing ++ [draft])
  /\ sublist (arrayOf existing
                (fst (HashSetDedup.appendWithLimit existing draft maxN hashSet)))
       (existing ++ [draft]).
Proof.
  destruct (appendWithLimit_dedup_equations existing draft maxN hashSet) as [HG HH].
  rewrite HG, HH.
  assert (Hs : sublist existing (existing ++ [draft])) by apply sublist_inserts_r, reflexivity.
  assert (Hn : sublist (evictLoop maxN (existing ++ [draft])) (existing ++ [draft])).
  { rewrite evictLoop_drops_oldest. apply dropOldestUnpinned_sublist. }
  repeat split.
  - destruct (existsb _ _); [left; reflexivity|apply appended_keepsOrder].
  - destruct (bool_decide _); [left; reflexivity|apply appended_keepsOrder].
  - destruct (existsb _ _); assumption.
  - destruct (bool_decide _); assumption.
Qed.

(** The claim as first stated fails: with the default cap of 500, a
    history of one unpinned item followed by 500 pinned ones, and an
    unpinned draft, the loop removes the unpinned item and then the draft.
    The result is not the given history and does not end with the draft. *)
Lemma appendWithLimit_draft_evicted :
  let pinnedItem := plainItem [3%N] (Some true) in
  let existing := plainItem [1%N] None :: repeat pinnedItem 500 in
  let draft := plainItem [2%N] None in
  let result := arrayOf existing (Guarded.appendWithLimit existing draft HISTORY_MAX_DEFAULT) in
  result = repeat pinnedItem 500
  /\ result <> existing
  /\ ~ (exists kept, result = kept ++ [draft]).
Proof.
  cbv zeta.
  assert (E : arrayOf (plainItem [1%N] None :: repeat (plainItem [3%N] (Some true)) 500)
                (Guarded.appendWithLimit
                   (plainItem [1%N] None :: repeat (plainItem [3%N] (Some true)) 500)
                   (plainItem [2%N] None) HISTORY_MAX_DEFAULT)
              = repeat (plainItem [3%N] (Some true)) 500).
  { destruct (appendWithLimit_dedup_equations
                (plainItem [1%N] None :: repeat (plainItem [3%N] (Some true)) 500)
                (plainItem [2%N] None) HISTORY_MAX_DEFAULT ∅) as [-> _].
    rewrite evictLoop_drops_oldest. vm_compute. reflexivity. }
  rewrite E. split; [reflexivity|]. split.
  - intros H. apply (f_equal (@length _)) in H.
    cbn [length] in H. rewrite !repeat_length in H. lia.
  - intros [kept H].
    assert (Hin : In (plainItem [2%N] None) (repeat (plainItem [3%N] (Some true)) 500)).
    { rewrite H. apply in_or_app. right. left. reflexivity. }
    apply repeat_spec in Hin. discriminate.
Qed.

(* ===================================================================== *)
(** * Properties: explicit delete *)
(* ===================================================================== *)

(** C4 (as amended). In version 1.3.0 a delete whose target, the first
    history item with the given id, is pinned is refused: the warning
    toast is raised, and history and saved history stay as they were.
    With an unpinned or absent target every item with that id is removed
    and the result saved.  Version 1.0.1 has no such guard: it removes
    every item with that id, pinned or not, and raises no toast. *)
Theorem deleteHistoryItem_pinned_guard (id : jsstring) (s : AppState) :
  let target := List.find (hasId id) (history s) in
  let others := List.filter (fun it => negb (hasId id it)) (history s) in
  (forall it, target = Some it -> isPinned it = true ->
     Guarded.deleteHistoryItem id s = setToast (Some Guarded.pinnedWarning) s
     /\ history (Guarded.deleteHistoryItem id s) = history s
     /\ savedHistory (Guarded.deleteHistoryItem id s) = savedHistory s
     /\ toast (Guarded.deleteHistoryItem id s) = Some Guarded.pinnedWarning)
  /\ ((target = None \/ exists it, target = Some it /\ isPinned it = false) ->
      Guarded.deleteHistoryItem id s = setHistoryAndSave others s
      /\ forall it, In it (history (Guarded.deleteHistoryItem id s)) -> HistItem.id it <> id)
  /\ history (HashSetDedup.deleteHistoryItem id s) = others
  /\ savedHistory (HashSetDedup.deleteHistoryItem id s) = Some others
  /\ toast (HashSetDedup.deleteHistoryItem id s) = toast s.
Proof.
  cbv zeta. unfold Guarded.deleteHistoryItem, HashSetDedup.deleteHistoryItem.
  fold (hasId id).
  split; [|split].
  - intros it Ht Hp. rewrite Ht. simpl. rewrite Hp. auto.
  - intros H.
    assert (E : default false (isPinned <$> List.find (hasId id) (history s)) = false).
    { destruct H as [->|(it & -> & Hp)]; simpl; auto. }
    unfold hasId in *. rewrite E. split; [reflexivity|].
    simpl. intros it Hin. apply filter_In in Hin as [_ Hin].
    apply negb_true_iff, jsstring_eqb_neq in Hin. exact Hin.
  - simpl. auto.
Qed.

(** With pairwise different ids the target is the only item with the id,
    so in version 1.3.0 no pinned item can be deleted this way. *)
Lemma find_unique_id (id : jsstring) (l : list HistItem.t) (it : HistItem.t) :
  NoDup (List.map HistItem.id l) -> In it l -> HistItem.id it = id ->
  List.find (hasId id) l = Some it.
Proof.
  induction l as [|x l IH]; simpl; [tauto|].
  intros Hnd Hin Hid. apply NoDup_cons in Hnd as [Hx Hnd]. unfold hasId at 1.
  destruct (jsstring_eqb (HistItem.id x) id) eqn:E.
  - apply jsstring_eqb_eq in E. destruct Hin as [->|Hin]; [reflexivity|].
    exfalso. apply Hx. rewrite E, <- Hid. apply list_elem_of_In, in_map, Hin.
  - destruct Hin as [->|Hin]; [apply jsstring_eqb_neq in E; congruence|auto].
Qed.

Lemma guarded_delete_keeps_pinned (id : jsstring) (s : AppState) (it : HistItem.t) :
  NoDup (List.map HistItem.id (history s)) ->
  In it (history s) -> isPinned it = true ->
  In it (history (Guarded.deleteHistoryItem id s)).
Proof.
  intros Hnd Hin Hp. unfold Guarded.deleteHistoryItem. fold (hasId id).
  destruct (jsstring_eqb (HistItem.id it) id) eqn:E.
  - apply jsstring_eqb_eq in E.
    rewrite (find_unique_id id _ it Hnd Hin E). simpl. rewrite Hp. exact Hin.
  - destruct (default false _); simpl; [exact Hin|].
    apply filter_In. split; [exact Hin|]. unfold hasId. rewrite E. reflexivity.
Qed.

(** The claim as first stated fails on version 1.0.1: the delete of a
    pinned item removes it and reports nothing. *)
Lemma unguarded_delete_removes_pinned :
  let it := plainItem (js "a") (Some true) in
  let s := stateOf [it] in
  isPinned it = true
  /\ history (HashSetDedup.deleteHistoryItem (js "a") s) = []
  /\ savedHistory (HashSetDedup.deleteHistoryItem (js "a") s) = Some []
  /\ toast (HashSetDedup.deleteHistoryItem (js "a") s) = None.
Proof. repeat split. Qed.

(** With a repeated id even version 1.3.0 removes a pinned item, when an
    unpinned item with the same id comes first. *)
Lemma guarded_delete_repeated_id :
  let first := plainItem (js "a") None in
  let second := plainItem (js "a") (Some true) in
  history (Guarded.deleteHistoryItem (js "a") (stateOf [first; second])) = [].
Proof. reflexivity. Qed.

(* ===================================================================== *)
(** * Properties: commit *)
(* ===================================================================== *)

Lemma setHashSet_same (s : AppState) : setHashSet (historyHashSet s) s = s.
Proof. destruct s; reflexivity. Qed.

Lemma guarded_commit_skipped (host : Host) (fuel : nat) (s : AppState) :
  length (trim (text s)) < HISTORY_MIN_CHARS
  \/ lastSavedHash s = Some (hashBase36 (slice 0 1000 (trim (text s)))) ->
  Guarded.commitHistory host fuel s = Some s.
Proof.
  intros H. unfold Guarded.commitHistory.
  destruct (length (trim (text s)) <? HISTORY_MIN_CHARS) eqn:E; [reflexivity|].
  destruct H as [H|H].
  - apply Nat.ltb_ge in E. lia.
  - rewrite bool_decide_eq_true_2 by exact H. reflexivity.
Qed.

Lemma hashset_commit_skipped (host : Host) (fuel : nat) (s : AppState) :
  length (trim (text s)) < 1
  \/ lastSavedHash s = Some (hashBase36 (slice 0 1000 (trim (text s)))) ->
  HashSetDedup.commitHistory host fuel s = Some s.
Proof.
  intros H. unfold HashSetDedup.commitHistory.
  destruct (trim (text s)) as [|c t] eqn:E; [reflexivity|].
  destruct H as [H|H].
  - simpl in H. lia.
  - rewrite bool_decide_eq_true_2 by exact H. reflexivity.
Qed.

(** C8. [commitHistory] returns without touching history, saved history
    or the last committed hash as soon as the trimmed text is shorter than
    the minimum (ten code units in version 1.3.0; one, that is non-empty,
    in version 1.0.1) or the hash of its first 1000 code units equals the
    last committed hash; no analysis is run in that case.  Hence a call
    that changes the state had the precondition: length at least the
    minimum and a hash different from the last committed one; and such a
    call stores the new history, saves it and records the hash. *)
Theorem commitHistory_precondition (host : Host) (fuel : nat) (s : AppState) :
  let clean := trim (text s) in
  let h := hashBase36 (slice 0 1000 clean) in
  (length clean < HISTORY_MIN_CHARS \/ lastSavedHash s = Some h ->
   Guarded.commitHistory host fuel s = Some s)
  /\ (length clean < 1 \/ lastSavedHash s = Some h ->
      HashSetDedup.commitHistory host fuel s = Some s)
  /\ (forall s', Guarded.commitHistory host fuel s = Some s' -> s' <> s ->
        HISTORY_MIN_CHARS <= length clean /\ lastSavedHash s <> Some h
        /\ lastSavedHash s' = Some h /\ savedHistory s' = Some (history s'))
  /\ (forall s', HashSetDedup.commitHistory host fuel s = Some s' -> s' <> s ->
        1 <= length clean /\ lastSavedHash s <> Some h
        /\ lastSavedHash s' = Some h /\ savedHistory s' = Some (history s')).
Proof.
  cbv zeta.
  split; [apply guarded_commit_skipped|].
  split; [apply hashset_commit_skipped|].
  split.
  - intros s' Hc Hne.
    assert (Hlen : HISTORY_MIN_CHARS <= length (trim (text s))).
    { destruct (le_lt_dec HISTORY_MIN_CHARS (length (trim (text s)))) as [H|H]; [exact H|].
      rewrite guarded_commit_skipped in Hc by (left; exact H). congruence. }
    assert (Hh : lastSavedHash s <> Some (hashBase36 (slice 0 1000 (trim (text s))))).
    { intros H. rewrite guarded_commit_skipped in Hc by (right; exact H). congruence. }
    split; [exact Hlen|]. split; [exact Hh|].
    unfold Guarded.commitHistory in Hc.
    rewrite (proj2 (Nat.ltb_ge _ _) Hlen) in Hc.
    rewrite bool_decide_eq_false_2 in Hc by exact Hh.
    destruct (analyze _ _ _ _) as [r|]; simpl in Hc; [|discriminate].
    destruct (Guarded.appendWithLimit _ _ _) as [|next].
    + congruence.
    + injection Hc as <-. split; reflexivity.
  - intros s' Hc Hne.
    assert (Hlen : 1 <= length (trim (text s))).
    { destruct (le_lt_dec 1 (length (trim (text s)))) as [H|H]; [exact H|].
      rewrite hashset_commit_skipped in Hc by (left; exact H). congruence. }
    assert (Hh : lastSavedHash s <> Some (hashBase36 (slice 0 1000 (trim (text s))))).
    { intros H. rewrite hashset_commit_skipped in Hc by (right; exact H). congruence. }
    split; [exact Hlen|]. split; [exact Hh|].
    unfold HashSetDedup.commitHistory in Hc.
    destruct (trim (text s)) as [|c t] eqn:Et; [simpl in Hlen; lia|].
    rewrite bool_decide_eq_false_2 in Hc by exact Hh.
    destruct (analyze _ _ _ _) as [r|]; simpl in Hc; [|discriminate].
    match type of Hc with
    | context [HashSetDedup.appendWithLimit ?e ?d ?m ?hs] =>
        destruct (appendWithLimit_dedup_equations e d m hs) as [_ HH];
        rewrite HH in Hc; clear HH
    end.
    destruct (bool_decide _).
    + rewrite setHashSet_same in Hc. congruence.
    + injection Hc as <-. split; reflexivity.
Qed.

(** A text of nine code units is not committed in version 1.3.0 and is
    committed in version 1.0.1; an empty history takes the item. *)
Example commit_threshold_differs :
  let host := mkHost (js "0") (js "1970-01-01T00:00:00.000Z") (fun _ => js "{}") in
  let s := {| text := js "123456789"; lexicon := DEFAULT_LEXICON; relationBoost := true;
              history := []; lastSavedHash := None; historyHashSet := ∅;
              savedHistory := None; toast := None |} in
  Guarded.commitHistory host 10 s = Some s
  /\ (exists s', HashSetDedup.commitHistory host 10 s = Some s'
                 /\ List.map HistItem.full (history s') = [js "123456789"]
                 /\ lastSavedHash s' = Some (hashBase36 (js "123456789"))).
Proof.
  split; [reflexivity|].
  eexists. split; [vm_compute; reflexivity|]. split; vm_compute; reflexivity.
Qed.

(* ===================================================================== *)
(** * Properties: export and import *)
(* ===================================================================== *)

Lemma mapM_map_roundtrip {A B : Type} (wr : A -> B) (read : B -> option A) (l : list A) :
  (forall x, read (wr x) = Some x) -> mapM read (List.map wr l) = Some l.
Proof.
  intros H. induction l as [|x l IH]; simpl; [reflexivity|].
  rewrite H. simpl. rewrite IH. reflexivity.
Qed.

Lemma asCategory_name (c : Category) : asCategory (JStr (categoryName c)) = Some c.
Proof. destruct c; vm_compute; reflexivity. Qed.

Lemma asTermPair_roundtrip (e : jsstring * Q) : asTermPair (termPairToJSON e) = Some e.
Proof. destruct e; reflexivity. Qed.

Lemma getField_hit (k : jsstring) (v : json) (fields : list (jsstring * json)) :
  getField k ((k, v) :: fields) = Some v.
Proof. simpl. rewrite jsstring_eqb_refl. reflexivity. Qed.

Lemma getField_miss (k k' : jsstring) (v : json) (fields : list (jsstring * json)) :
  k' <> k -> getField k ((k', v) :: fields) = getField k fields.
Proof. intros H. simpl. apply jsstring_eqb_neq in H. rewrite H. reflexivity. Qed.

Ltac resolve_fields :=
  repeat first
    [ rewrite getField_hit
    | rewrite getField_miss
        by (let H := fresh in intro H; vm_compute in H; discriminate H) ].

Lemma asHistItem_roundtrip (it : HistItem.t) : asHistItem (histItemToJSON it) = Some it.
Proof.
  destruct it as [id ts snip full norm lead top ver lex pinned].
  destruct top as [ta tl ts' tm td].
  unfold asHistItem, histItemToJSON. cbn [HistItem.id HistItem.ts HistItem.snip
    HistItem.full HistItem.norm HistItem.lead HistItem.top HistItem.ver HistItem.lex
    HistItem.pinned app List.map CATS_FOR_HISTORY catsOrder pget
    affection longing sadness amae desire].
  assert (Hn : asArrayOf asNumber (Some (JArr (List.map JNum norm))) = Some norm).
  { simpl. apply mapM_map_roundtrip. reflexivity. }
  assert (Hl : asArrayOf asCategory
                 (Some (JArr (List.map (fun c => JStr (categoryName c)) lead))) = Some lead).
  { simpl. apply (mapM_map_roundtrip (fun c => JStr (categoryName c))). apply asCategory_name. }
  assert (Ht : forall l, asArrayOf asTermPair (Some (JArr (List.map termPairToJSON l)))
                         = Some l).
  { intros l. simpl. apply mapM_map_roundtrip. apply asTermPair_roundtrip. }
  unfold asTopTerms.
  destruct pinned as [b|]; resolve_fields;
    cbn [asString asPinned getField mbind option_bind]; rewrite Hn, Hl;
    cbn [mbind option_bind]; resolve_fields; rewrite !Ht; reflexivity.
Qed.

Lemma validImportItem_histItem (it : HistItem.t) : validImportItem (histItemToJSON it) = true.
Proof. destruct it as [? ? ? ? ? ? ? ? ? [b|]]; reflexivity. Qed.

Section ExportImport.
Variable JSON_stringify : json -> nat -> jsstring.
Variable JSON_parse : jsstring -> option json.

End ExportImport.


Example sampleHistory_length : length sampleHistory = 2.
Proof. vm_compute. reflexivity. Qed.

(** A payload with string-typed [id], [ts] and [full] only passes the
    validation although it is no history item; a payload without [full]
    is refused as a whole. *)
Example import_validation_is_weak :
  let bare := JObj [(js "id", JStr (js "x")); (js "ts", JStr (js "t"));
                    (js "full", JStr (js "text"))] in
  handleImportHistoryInput SampleJSON.parse (SampleJSON.stringify (JArr [bare]) 2)
  = ImportReplaced [bare]
  /\ typedHistory [bare] = None
  /\ handleImportHistoryInput SampleJSON.parse
       (SampleJSON.stringify
          (JArr [bare; JObj [(js "id", JStr (js "y")); (js "ts", JStr (js "t"))]]) 2)
     = ImportAlert.
Proof. repeat split; vm_compute; reflexivity. Qed.

(* ===================================================================== *)
(** * Worked examples of the scoring engine *)
(* ===================================================================== *)

(** "会いたい" alone, default lexicon, no relation boost: affection and
    longing both get 2.4, both normalize to 100 and both lead. *)
Example analyze_aitai :
  exists r,
    analyze 5 [0x4F1A; 0x3044; 0x305F; 0x3044]%N DEFAULT_LEXICON false = Some r
    /\ (pget (AnalysisResult.raw r) Affection == 2.4)%Q
    /\ (pget (AnalysisResult.raw r) Longing == 2.4)%Q
    /\ List.map Qred (List.map (pget (AnalysisResult.normalized r)) catsOrder)
       = [100; 100; 0; 0; 0]%Q
    /\ leaders [0x4F1A; 0x3044; 0x305F; 0x3044]%N r = [Affection; Longing].
Proof. eexists. repeat split; vm_compute; reflexivity. Qed.

(** "好きじゃない": the negation just after the match cancels it. *)
Example analyze_suki_negated :
  exists r,
    analyze 7 [0x597D; 0x304D; 0x3058; 0x3083; 0x306A; 0x3044]%N DEFAULT_LEXICON false = Some r
    /\ (pget (AnalysisResult.raw r) Affection == 0)%Q
    /\ (pget (AnalysisResult.normalized r) Affection == 0)%Q
    /\ leaders [0x597D; 0x304D; 0x3058; 0x3083; 0x306A; 0x3044]%N r = [].
Proof. eexists. repeat split; vm_compute; reflexivity. Qed.

(** "とても好き" scores 2 * 1.5, "少しとても好き" scores 2 * 1.05. *)
Example analyze_suki_modified :
  (exists r,
     analyze 6 [0x3068; 0x3066; 0x3082; 0x597D; 0x304D]%N DEFAULT_LEXICON false = Some r
     /\ (pget (AnalysisResult.raw r) Affection == 3)%Q)
  /\ (exists r,
        analyze 8 [0x5C11; 0x3057; 0x3068; 0x3066; 0x3082; 0x597D; 0x304D]%N
          DEFAULT_LEXICON false = Some r
        /\ (pget (AnalysisResult.raw r) Affection == 2.1)%Q).
Proof. split; eexists; split; vm_compute; reflexivity. Qed.

(** The loop needs one iteration more than there are matches. *)
Example countSubstringIndices_fuel :
  countSubstringIndices 3 (js "abab") (js "ab") = Some [0; 2]
  /\ countSubstringIndices 2 (js "abab") (js "ab") = None
  /\ countSubstringIndices 4 (js "aaa") (js "aa") = Some [0].
Proof. repeat split. Qed.
